(** * convert_coco: Parquet captions to WebDataset shards

    A shallow embedding of [src/convert_coco.py] and the properties of its
    two passes: the "longest caption wins" aggregation over the rows of the
    input tables, and the validation/writing pass that feeds the shard
    writer.

    Python values are embedded as the script handles them: the [image]
    column is dispatched on with [isinstance], so it is an arbitrary Python
    value; the [caption] column is a nullable string column; prints are
    recorded as a list of events; exceptions are explicit results. *)

From Stdlib Require Import List String Ascii Strings.Byte ZArith Lia Bool Arith PeanoNat.
From Stdlib Require Import DecimalString Decimal.
From Stdlib Require Import Sorted Permutation.
From Stdlib Require DecimalNat.
Import ListNotations.

Local Open Scope string_scope.
Local Open Scope list_scope.

Set Implicit Arguments.

(* ================================================================== *)
(** ** Python values *)

Definition bytes := list byte.

(** The values an [image] cell can hold.  A dict is kept as the list of its
    items; a lookup takes the first item with the key. *)
#[warnings="-register-all"]
Inductive pyval : Type :=
| PyNone
| PyBytes (b : bytes)
| PyStr (s : string)
| PyInt (z : Z)
| PyDict (items : list (string * pyval)).

(** [x is None] *)
Definition is_None (v : pyval) : bool :=
  match v with PyNone => true | _ => false end.

Fixpoint dict_get (items : list (string * pyval)) (k : string) : option pyval :=
  match items with
  | [] => None
  | (k', v) :: rest => if String.eqb k' k then Some v else dict_get rest k
  end.

(** Exceptions.  [UnidentifiedImageError] has its own handler in the
    validator; everything else is caught as [Exception]. *)
Inductive exn : Type :=
| UnidentifiedImageError
| Exception (descr : string).

Definition TypeError_len : exn :=
  Exception "object of type 'NoneType' has no len()".

Definition TypeError_bytes : exn :=
  Exception "a bytes-like object is required".

(** [len(s)] of a nullable string: [None] has no length. *)
Definition py_len (s : option string) : exn + nat :=
  match s with
  | Some t => inr (String.length t)
  | None => inl TypeError_len
  end.

(** [not s] of a nullable string: [None] and [""] are falsy. *)
Definition py_not (s : option string) : bool :=
  match s with
  | Some t => String.eqb t ""
  | None => true
  end.

(* ================================================================== *)
(** ** String helpers of the Python library *)

Definition lower_ascii (c : ascii) : ascii :=
  let n := nat_of_ascii c in
  if (65 <=? n)%nat && (n <=? 90)%nat then ascii_of_nat (n + 32) else c.

(** [str.lower()] on ASCII text. *)
Fixpoint lower (s : string) : string :=
  match s with
  | EmptyString => EmptyString
  | String c s' => String (lower_ascii c) (lower s')
  end.

(** [p.rfind(c)]: index of the last occurrence, [-1] when there is none. *)
Fixpoint rfind_from (c : ascii) (p : string) (i last : Z) : Z :=
  match p with
  | EmptyString => last
  | String a p' => rfind_from c p' (i + 1) (if Ascii.eqb a c then i else last)
  end.

Definition rfind (c : ascii) (p : string) : Z := rfind_from c p 0 (-1).

(** The [while filenameIndex < dotIndex] loop of [genericpath._splitext]:
    [true] when a character other than the dot is met before [dotIndex]
    ([n] counts the remaining iterations). *)
Fixpoint non_dot_before (p : string) (filenameIndex : Z) (n : nat) : bool :=
  match n with
  | O => false
  | S n' =>
      match String.get (Z.to_nat filenameIndex) p with
      | Some a =>
          if Ascii.eqb a "."%char then non_dot_before p (filenameIndex + 1) n'
          else true
      | None => true
      end
  end.

(** [os.path.splitext(p)] (posix): the extension starts at the last dot of
    the last path component, leading dots of that component apart. *)
Definition splitext (p : string) : string * string :=
  let sepIndex := rfind "/"%char p in
  let dotIndex := rfind "."%char p in
  if (sepIndex <? dotIndex)%Z
     && non_dot_before p (sepIndex + 1) (Z.to_nat (dotIndex - (sepIndex + 1)))
  then (substring 0 (Z.to_nat dotIndex) p,
        substring (Z.to_nat dotIndex) (String.length p - Z.to_nat dotIndex) p)
  else (p, "").

(** [os.path.join(a, b)] (posix) for two components. *)
Definition os_path_join (a b : string) : string :=
  if prefix "/" b then b
  else if String.eqb a "" then b
  else if Ascii.eqb (match String.get (String.length a - 1) a with
                     | Some c => c | None => " "%char end) "/"%char
       then a ++ b
       else a ++ "/" ++ b.

(** ["%06d" % n] *)
Fixpoint zeros (k : nat) : string :=
  match k with O => "" | S k' => String "0"%char (zeros k') end.

Definition fmt_06d (n : nat) : string :=
  let d := NilZero.string_of_uint (Nat.to_uint n) in
  zeros (6 - String.length d) ++ d.

(* ================================================================== *)
(** ** Console output *)

(** One constructor per [print] of the script, with the values it
    interpolates. *)
Inductive event : Type :=
| WarnUnexpectedFormat (img_format filename : string)
    (* Warning: Unexpected image format '..' for ... Attempting to save as jpeg. *)
| InfoConverting (filename mode : string)
    (* Converting .. from .. to RGB for JPEG. *)
| ErrUnidentified (filename : string)
    (* Error: Cannot identify image file ... Skipping. *)
| ErrValidating (filename descr : string)
    (* Error validating/processing image ..: .. *)
| InfoStep1
    (* Step 1: Reading Parquet files and finding longest prompts... *)
| WarnImageField (filename : string)
    (* Warning: Image data for .. is not bytes or expected dict. ... Skipping. *)
| ErrParquet (path descr : string)
    (* Error reading or processing Parquet file ..: .. *)
| InfoStep2 (unique_images : nat)
    (* Step 2: Writing .. unique images to WebDataset shards... *)
| WarnMissing (filename : string)
    (* Warning: Missing image bytes or prompt for ... Skipping. *)
| InfoFinished
| InfoProcessed (total : nat)
| InfoSavedIn (output_dir : string)
| ErrNoFiles (pattern : string)
    (* Error: No Parquet files found matching pattern '..' *)
| InfoFound (n : nat) (split : string).

Definition descr_of (e : exn) : string :=
  match e with
  | UnidentifiedImageError => "cannot identify image file"
  | Exception d => d
  end.

(* ================================================================== *)
(** ** Printing and raising *)

(** A computation prints, and then either raised or returned. *)
Definition M (A : Type) : Type := list event * (exn + A).

Definition ret {A} (a : A) : M A := ([], inr a).
Definition print (ev : event) : M unit := ([ev], inr tt).
Definition lift {A} (r : exn + A) : M A := ([], r).

Definition bind {A B} (m : M A) (k : A -> M B) : M B :=
  match m with
  | (out, inl e) => (out, inl e)
  | (out, inr a) => let (out', r) := k a in (out ++ out', r)
  end.

Notation "x <- m ;; k" := (bind m (fun x => k))
  (at level 61, m at next level, right associativity).
Notation "m ;;; k" := (bind m (fun _ => k))
  (at level 61, right associativity).

(** [try: m  except Exception as e: h e] *)
Definition try_except {A} (m : M A) (h : exn -> M A) : M A :=
  match m with
  | (out, inl e) => let (out', r) := h e in (out ++ out', r)
  | (out, inr a) => (out, inr a)
  end.

(* ================================================================== *)
(** ** The image library *)

(** What the validator uses of PIL: opening a byte stream, the integrity
    check, the three attributes it reads, and the conversion and JPEG
    encoder.  Every call that can raise returns a sum. *)
Record PIL : Type := {
  Image : Type;
  Image_open : bytes -> exn + Image;
  verify : Image -> exn + unit;
  size : Image -> Z * Z;
  format : Image -> option string;
  mode : Image -> string;
  convert_RGB : Image -> exn + Image;
  save_JPEG : Image -> exn + bytes
}.

(** [io.BytesIO(x)]: bytes give the stream; a str, an int or a dict
    raises [TypeError].  For [None] the library gives an empty stream,
    which [Image.open] then refuses to identify; here the wrap raises
    instead, so a [None] payload is rejected either way, with the other of
    the two error lines.  Step 2 never passes [None] (line 126). *)
Definition BytesIO (x : pyval) : exn + bytes :=
  match x with
  | PyBytes b => inr b
  | _ => inl TypeError_bytes
  end.

Definition supported_formats : list string := ["jpeg"; "png"; "webp"].

Definition str_in (s : string) (l : list string) : bool :=
  existsb (String.eqb s) l.

Arguments str_in : simpl never.

Section Validator.

Variable pil : PIL.

(** [img.format.lower() if img.format else 'jpeg'] *)
Definition detected_format (img : Image pil) : string :=
  match format pil img with
  | Some f => if String.eqb f "" then "jpeg" else lower f
  | None => "jpeg"
  end.

(** The body of the [try] block, lines 21-52. *)
Definition validate_body (img_bytes : pyval) (filename_for_error : string)
  : M (bytes * string * Z * Z) :=
  raw <- lift (BytesIO img_bytes) ;;
  img <- lift (Image_open pil raw) ;;
  lift (verify pil img) ;;;
  raw <- lift (BytesIO img_bytes) ;;
  img <- lift (Image_open pil raw) ;;
  let (width, height) := size pil img in
  let img_format := detected_format img in
  img_format <-
    (if negb (str_in img_format supported_formats)
     then print (WarnUnexpectedFormat img_format filename_for_error) ;;;
          ret "jpeg"
     else ret img_format) ;;
  validated_bytes <-
    (if String.eqb img_format "jpeg" && negb (String.eqb (mode pil img) "RGB")
     then print (InfoConverting filename_for_error (mode pil img)) ;;;
          img' <- lift (convert_RGB pil img) ;;
          lift (save_JPEG pil img')
     else if String.eqb img_format "png" && String.eqb (mode pil img) "RGBA"
     then ret raw
     else ret raw) ;;
  ret (validated_bytes, img_format, width, height).

(** The two handlers, lines 53-58. *)
Definition validate_handler (filename_for_error : string) (e : exn)
  : M (option (bytes * string * Z * Z)) :=
  match e with
  | UnidentifiedImageError =>
      print (ErrUnidentified filename_for_error) ;;; ret None
  | Exception d =>
      print (ErrValidating filename_for_error d) ;;; ret None
  end.

(** [get_image_bytes_validate_and_dims]: [None] stands for the tuple
    [(None, None, None, None)]. *)
Definition get_image_bytes_validate_and_dims
    (img_bytes : pyval) (filename_for_error : string)
  : list event * option (bytes * string * Z * Z) :=
  match try_except
          (r <- validate_body img_bytes filename_for_error ;; ret (Some r))
          (validate_handler filename_for_error) with
  | (out, inr r) => (out, r)
  | (out, inl _) => (out, None)
  end.

End Validator.

(* ================================================================== *)
(** ** Rows, files and the aggregation mapping *)

(** One row of a table: [row['filename']], [row['caption']] (a nullable
    string column, [None] for a null cell; [len] counts the characters of
    the string) and [row['image']]. *)
Record row : Type := {
  filename : string;
  caption : option string;
  image : pyval
}.

(** A Parquet file as the script sees it: its path, and what
    [pq.read_table(path).to_pandas()] gives (the rows, or an exception). *)
Record parquet_file : Type := {
  path : string;
  read_table : exn + list row
}.

(** The value of [image_data[filename]]. *)
Record entry : Type := {
  prompt_text : option string;
  image_bytes : pyval
}.

(** [lambda: {"prompt_text": "", "image_bytes": None}] *)
Definition default_entry : entry :=
  {| prompt_text := Some ""; image_bytes := PyNone |}.

(** [image_data]: a Python dict keeps its keys in insertion order, and the
    second pass iterates in that order, so the mapping is the list of its
    items. *)
Definition image_data_t : Type := list (string * entry).

Fixpoint lookup (d : image_data_t) (k : string) : option entry :=
  match d with
  | [] => None
  | (k', e) :: rest => if String.eqb k' k then Some e else lookup rest k
  end.

(** Assignment to an existing key keeps its place; a new key goes last. *)
Fixpoint store (d : image_data_t) (k : string) (e : entry) : image_data_t :=
  match d with
  | [] => [(k, e)]
  | (k', e') :: rest =>
      if String.eqb k' k then (k', e) :: rest else (k', e') :: store rest k e
  end.

(** [image_data[filename]] on the defaultdict: a missing key is inserted
    with the default entry before it is returned. *)
Definition getitem (d : image_data_t) (k : string) : image_data_t * entry :=
  match lookup d k with
  | Some e => (d, e)
  | None => (store d k default_entry, default_entry)
  end.

(** Lines 102-108: the payload of the image cell, or [None] for the
    [else] branch that skips the row. *)
Definition extract_image_bytes (image_field : pyval) : option pyval :=
  match image_field with
  | PyDict items => dict_get items "bytes"
  | PyBytes b => Some (PyBytes b)
  | _ => None
  end.

(** The body of the row loop, lines 97-115.  The result is the mapping
    after the row, what was printed, and whether the body raised. *)
Definition process_row (d : image_data_t) (r : row)
  : image_data_t * M unit :=
  match extract_image_bytes (image r) with
  | None => (d, print (WarnImageField (filename r)))
  | Some payload =>
      let (d1, e) := getitem d (filename r) in
      if is_None (image_bytes e) then
        (store d1 (filename r)
           {| prompt_text := caption r; image_bytes := payload |}, ret tt)
      else
        match py_len (caption r), py_len (prompt_text e) with
        | inr n, inr m =>
            if (m <? n)%nat then
              (store d1 (filename r)
                 {| prompt_text := caption r; image_bytes := image_bytes e |},
               ret tt)
            else (d1, ret tt)
        | inl ex, _ => (d1, lift (inl ex))
        | _, inl ex => (d1, lift (inl ex))
        end
  end.

(** [for index, row in df.iterrows(): ...]: an exception leaves the loop;
    what was stored before it stays. *)
Fixpoint process_rows (d : image_data_t) (rows : list row)
  : image_data_t * M unit :=
  match rows with
  | [] => (d, ret tt)
  | r :: rest =>
      match process_row d r with
      | (d', (out, inr _)) =>
          let (d'', m) := process_rows d' rest in (d'', (out, inr tt) ;;; m)
      | (d', (out, inl ex)) => (d', (out, inl ex))
      end
  end.

(** One iteration of the file loop, lines 87-119: read, scan the rows, and
    on any exception print and go on with the next file. *)
Definition process_file (d : image_data_t) (pf : parquet_file)
  : image_data_t * list event :=
  match read_table pf with
  | inl ex => (d, [ErrParquet (path pf) (descr_of ex)])
  | inr rows =>
      match process_rows d rows with
      | (d', (out, inr _)) => (d', out)
      | (d', (out, inl ex)) => (d', out ++ [ErrParquet (path pf) (descr_of ex)])
      end
  end.

(** Step 1, lines 86-119. *)
Fixpoint step1 (d : image_data_t) (parquet_files : list parquet_file)
  : image_data_t * list event :=
  match parquet_files with
  | [] => (d, [])
  | pf :: rest =>
      let (d', out) := process_file d pf in
      let (d'', out') := step1 d' rest in
      (d'', out ++ out')
  end.

(* ================================================================== *)
(** ** Samples and the shard writer *)

(** The ["json"] member of a sample. *)
Record metadata : Type := {
  prompt : string;
  width : Z;
  height : Z
}.

(** The sample dict of lines 137-146: ["__key__"], the payload under the
    key [img_format], and ["json"]. *)
Record sample : Type := {
  key : string;
  img_field : string;
  img_payload : bytes;
  json : metadata
}.

(** A shard on disk: its file name and the samples written to it, in
    order. *)
Record shard_file : Type := {
  shard_name : string;
  shard_samples : list sample
}.

(** Modelled from the spec: the archive writer [wds.ShardWriter] is an
    external collaborator and is not under src/.  Section 4.3: it accepts
    samples in arrival order, groups them into shards of at most
    [maxcount] samples, writes each shard to a distinctly numbered file
    when full or on close, never splits a sample, and numbers the shards
    from 0 in steps of 1 through the file name pattern.  [tarstream] is the
    shard being filled, [finished] the shards already closed; the stream of
    shard 0 is opened when the writer is created. *)
Record ShardWriter : Type := {
  pattern : nat -> string;
  maxcount : nat;
  shard : nat;
  count : nat;
  tarstream : option shard_file;
  finished : list shard_file
}.

Definition finish (w : ShardWriter) : ShardWriter :=
  match tarstream w with
  | Some f =>
      {| pattern := pattern w; maxcount := maxcount w; shard := shard w;
         count := count w; tarstream := None;
         finished := finished w ++ [f] |}
  | None => w
  end.

Definition next_stream (w : ShardWriter) : ShardWriter :=
  let w := finish w in
  {| pattern := pattern w; maxcount := maxcount w; shard := S (shard w);
     count := 0;
     tarstream := Some {| shard_name := pattern w (shard w);
                          shard_samples := [] |};
     finished := finished w |}.

Definition ShardWriter_new (pat : nat -> string) (maxcount : nat)
  : ShardWriter :=
  next_stream {| pattern := pat; maxcount := maxcount; shard := 0;
                 count := 0; tarstream := None; finished := [] |}.

Definition sink_write (w : ShardWriter) (obj : sample) : ShardWriter :=
  let w :=
    match tarstream w with
    | None => next_stream w
    | Some _ => if (maxcount w <=? count w)%nat then next_stream w else w
    end in
  {| pattern := pattern w; maxcount := maxcount w; shard := shard w;
     count := S (count w);
     tarstream :=
       match tarstream w with
       | Some f => Some {| shard_name := shard_name f;
                           shard_samples := shard_samples f ++ [obj] |}
       | None => None
       end;
     finished := finished w |}.

(** Leaving the [with] block: the files on disk. *)
Definition sink_close (w : ShardWriter) : list shard_file :=
  finished (finish w).

(** [shard_pattern % n] with
    [shard_pattern = os.path.join(output_dir, f"{output_prefix}-%06d.tar")]
    (line 73), for an [output_dir] and prefix free of ['%']. *)
Definition shard_pattern (output_dir output_prefix : string) (n : nat)
  : string :=
  os_path_join output_dir
    (output_prefix ++ "-" ++ fmt_06d n ++ ".tar")%string.

(* ================================================================== *)
(** ** The writing pass and the driver *)

(** What a run leaves behind. *)
Record outcome : Type := {
  stdout : list event;
  made_dirs : list string;
  shards : list shard_file;
  total_images_processed : nat
}.

Section Convert.

Variable pil : PIL.

(** Lines 123-146 for one item of [image_data]: the sample to write, or
    [None] where the loop body ends in [continue]. *)
Definition make_sample (base_filename : string) (data : entry)
  : list event * option sample :=
  let image_bytes := image_bytes data in
  let prompt_text := prompt_text data in
  if is_None image_bytes || py_not prompt_text then
    ([WarnMissing base_filename], None)
  else
    match get_image_bytes_validate_and_dims pil image_bytes base_filename with
    | (out, None) => (out, None)
    | (out, Some (validated_bytes, img_format, width, height)) =>
        (out,
         Some {| key := fst (splitext base_filename);
                 img_field := img_format;
                 img_payload := validated_bytes;
                 json := {| prompt := match prompt_text with
                                      | Some s => s | None => "" end;
                            width := width;
                            height := height |} |})
    end.

(** The loop of step 2, lines 122-150, over the items in insertion order:
    the sink, the counter and the output so far are threaded through. *)
Fixpoint step2 (items : image_data_t) (sink : ShardWriter)
    (total : nat) : ShardWriter * nat * list event :=
  match items with
  | [] => (sink, total, [])
  | (base_filename, data) :: rest =>
      match make_sample base_filename data with
      | (out, None) =>
          let '(sink', total', out') := step2 rest sink total in
          (sink', total', out ++ out')
      | (out, Some s) =>
          let '(sink', total', out') :=
            step2 rest (sink_write sink s) (S total) in
          (sink', total', out ++ out')
      end
  end.

(** [convert_parquet_to_webdataset_with_dims], lines 60-154. *)
Definition convert_parquet_to_webdataset_with_dims
    (parquet_files : list parquet_file) (output_dir output_prefix : string)
    (samples_per_shard : nat) : outcome :=
  let sink := ShardWriter_new (shard_pattern output_dir output_prefix)
                              samples_per_shard in
  let (image_data, out1) := step1 [] parquet_files in
  let '(sink, total, out2) := step2 image_data sink 0 in
  {| stdout := [InfoStep1] ++ out1
               ++ [InfoStep2 (List.length image_data)] ++ out2
               ++ [InfoFinished; InfoProcessed total; InfoSavedIn output_dir];
     made_dirs := [output_dir];
     shards := sink_close sink;
     total_images_processed := total |}.

(** [sorted(paths)]: insertion of each file by its path. *)
Fixpoint insert_sorted (pf : parquet_file) (l : list parquet_file)
  : list parquet_file :=
  match l with
  | [] => [pf]
  | x :: rest =>
      if String.leb (path pf) (path x) then pf :: x :: rest
      else x :: insert_sorted pf rest
  end.

Definition sorted (l : list parquet_file) : list parquet_file :=
  fold_right insert_sorted [] l.

Inductive split_t : Type := train | test.

Definition split_name (s : split_t) : string :=
  match s with train => "train" | test => "test" end.

(** The [__main__] block, lines 166-176.  [glob_result] is what
    [glob.glob(parquet_pattern)] returns: the files matching
    [<input_dir>/<split>-*.parquet]. *)
Definition main (input_dir output_dir : string) (split : split_t)
    (samples_per_shard : nat) (glob_result : list parquet_file) : outcome :=
  let parquet_pattern :=
    os_path_join input_dir (split_name split ++ "-*.parquet")%string in
  let parquet_files := sorted glob_result in
  match parquet_files with
  | [] =>
      {| stdout := [ErrNoFiles parquet_pattern];
         made_dirs := [];
         shards := [];
         total_images_processed := 0 |}
  | _ :: _ =>
      let output_shard_dir := os_path_join output_dir (split_name split) in
      let output_prefix := ("coco-" ++ split_name split)%string in
      let r := convert_parquet_to_webdataset_with_dims
                 parquet_files output_shard_dir output_prefix
                 samples_per_shard in
      {| stdout := InfoFound (List.length parquet_files) (split_name split)
                   :: stdout r;
         made_dirs := made_dirs r;
         shards := shards r;
         total_images_processed := total_images_processed r |}
  end.

End Convert.

(* ================================================================== *)
(** ** The array inspector, [src/read_npy.py] *)

(** The script loads one array and prints its shape, type, extremes and
    a small excerpt.  An array is its shape, its type name and its
    elements in row-major order; the elements and the two reductions are
    those of the array library. *)
Module ReadNpy.

Section Script.

Variable elt : Type.

(** [data.min()] and [data.max()] on the elements of a non-empty
    array. *)
Variable np_min np_max : list elt -> elt.

Record ndarray : Type := {
  shape : list nat;
  dtype : string;
  flat : list elt
}.

(** [data.size]: the product of the dimensions. *)
Definition size (a : ndarray) : nat := fold_right Nat.mul 1 (shape a).

(** The lines of the script, with the values they show. *)
Inductive line : Type :=
| DataShape (s : list nat)
| DataType (t : string)
| MinValue (x : elt)
| MaxValue (x : elt)
| FullData (a : ndarray)
| First10 (a : ndarray)
| TopLeftCorner (a : ndarray)
| SampleSlice3 (a : ndarray)
| SampleSlice4 (a : ndarray).

Definition ValueError_reduction : exn :=
  Exception "zero-size array to reduction operation minimum which has no identity".

Definition IndexError_axis0 : exn :=
  Exception "index 0 is out of bounds for axis 0 with size 0".

(** The rows of an [r] by [c] block stored in row-major order. *)
Fixpoint rows (r c : nat) (l : list elt) : list (list elt) :=
  match r with
  | O => []
  | S r' => firstn c l :: rows r' c (skipn c l)
  end.

(** [block[:5, :5]] of an [r] by [c] block: slices stop at the bounds. *)
Definition corner (t : string) (r c : nat) (block : list elt) : ndarray :=
  {| shape := [Nat.min 5 r; Nat.min 5 c];
     dtype := t;
     flat := flat_map (firstn 5) (firstn 5 (rows r c block)) |}.

(** The [if]/[elif] chain of lines 17-24 on the number of dimensions;
    the index [0] on an axis of size 0 raises. *)
Definition excerpt (data : ndarray) : list line * (exn + unit) :=
  match shape data with
  | [n] =>
      ([First10 {| shape := [Nat.min 10 n]; dtype := dtype data;
                   flat := firstn 10 (flat data) |}], inr tt)
  | [r; c] => ([TopLeftCorner (corner (dtype data) r c (flat data))], inr tt)
  | [a; r; c] =>
      if (a =? 0)%nat then ([], inl IndexError_axis0)
      else ([SampleSlice3 (corner (dtype data) r c
                             (firstn (r * c) (flat data)))], inr tt)
  | [a; b; r; c] =>
      if (a =? 0)%nat || (b =? 0)%nat then ([], inl IndexError_axis0)
      else ([SampleSlice4 (corner (dtype data) r c
                             (firstn (r * c) (flat data)))], inr tt)
  | _ => ([], inr tt)
  end.

(** The script, lines 4-24, on what [np.load(file_path)] gives. *)
Definition script (loaded : exn + ndarray) : list line * (exn + unit) :=
  match loaded with
  | inl e => ([], inl e)
  | inr data =>
      let out := [DataShape (shape data); DataType (dtype data)] in
      if (size data =? 0)%nat then (out, inl ValueError_reduction)
      else
        let out := out ++ [MinValue (np_min (flat data));
                           MaxValue (np_max (flat data))] in
        if (size data <? 50)%nat then (out ++ [FullData data], inr tt)
        else let (more, r) := excerpt data in (out ++ more, r)
  end.

(** The array shown by an excerpt line. *)
Definition shown (l : line) : option ndarray :=
  match l with
  | FullData a | First10 a | TopLeftCorner a | SampleSlice3 a
  | SampleSlice4 a => Some a
  | _ => None
  end.

(** The array holds as many elements as its shape says. *)
Definition consistent (a : ndarray) : Prop :=
  List.length (flat a) = size a.

End Script.

End ReadNpy.

(* ================================================================== *)
(** ** A small decoder to run the code on concrete payloads *)

(** A stand-in for the image library on four-byte headers
    [format; mode; width; height]: enough to evaluate the validator and the
    driver on explicit inputs.  A fifth byte [xff] makes the integrity check
    fail and [xfe] makes the conversion fail. *)
Module Stub.

Record image : Type := {
  i_format : option string;
  i_mode : string;
  i_width : byte;
  i_height : byte;
  i_rest : bytes
}.

Definition format_of (b : byte) : option (option string) :=
  match b with
  | x00 => Some (Some "JPEG")
  | x01 => Some (Some "PNG")
  | x02 => Some (Some "WEBP")
  | x03 => Some (Some "BMP")
  | x04 => Some None
  | _ => None
  end.

Definition mode_of (b : byte) : string :=
  match b with
  | x00 => "RGB"
  | x01 => "RGBA"
  | x02 => "L"
  | _ => "P"
  end.

Definition dim (b : byte) : Z := Z.of_N (Byte.to_N b).

Definition open (raw : bytes) : exn + image :=
  match raw with
  | f :: m :: w :: h :: rest =>
      match format_of f with
      | Some fmt => inr {| i_format := fmt; i_mode := mode_of m;
                           i_width := w; i_height := h; i_rest := rest |}
      | None => inl UnidentifiedImageError
      end
  | _ => inl UnidentifiedImageError
  end.

Definition check (img : image) : exn + unit :=
  match i_rest img with
  | xff :: _ => inl (Exception "broken data stream")
  | _ => inr tt
  end.

Definition to_rgb (img : image) : exn + image :=
  match i_rest img with
  | xfe :: _ => inl (Exception "image file is truncated")
  | _ => inr {| i_format := None; i_mode := "RGB";
                i_width := i_width img; i_height := i_height img;
                i_rest := i_rest img |}
  end.

Definition encode_jpeg (img : image) : exn + bytes :=
  inr [x00; x00; i_width img; i_height img].

Definition pil : PIL :=
  {| Image := image; Image_open := open; verify := check;
     size := fun img => (dim (i_width img), dim (i_height img));
     format := i_format; mode := i_mode;
     convert_RGB := to_rgb; save_JPEG := encode_jpeg |}.

End Stub.

(* ================================================================== *)
(** ** Vocabulary of the properties *)

(** *** The aggregation pass *)

(** The stored payload of a filename, [None] when it has no entry. *)
Definition stored_bytes (d : image_data_t) (f : string) : pyval :=
  match lookup d f with
  | Some e => image_bytes e
  | None => PyNone
  end.

(** The image cell is raw bytes. *)
Definition is_bytes (v : pyval) : bool :=
  match v with PyBytes _ => true | _ => false end.

(** The image cell is a dict with a ['bytes'] key. *)
Definition is_envelope (v : pyval) : bool :=
  match v with
  | PyDict items =>
      match dict_get items "bytes" with Some _ => true | None => false end
  | _ => false
  end.

(** The rows the pass gets to scan: those of the files that could be
    read, in file order. *)
Definition rows_of (files : list parquet_file) : list row :=
  flat_map (fun pf => match read_table pf with
                      | inr rows => rows
                      | inl _ => []
                      end) files.

(** The entry of [filename r] after a row with payload [p] that did not
    raise. *)
Definition updated_entry (old : option entry) (c : option string)
    (p : pyval) : entry :=
  match old with
  | None => {| prompt_text := c; image_bytes := p |}
  | Some e =>
      if is_None (image_bytes e) then {| prompt_text := c; image_bytes := p |}
      else
        match prompt_text e, c with
        | Some s, Some t =>
            if (String.length s <? String.length t)%nat
            then {| prompt_text := c; image_bytes := image_bytes e |}
            else e
        | _, _ => e
        end
  end.

(** Every stored prompt is a string. *)
Definition prompts_set (d : image_data_t) : Prop :=
  forall f e, lookup d f = Some e -> prompt_text e <> None.

(** The row is for [f] and its image cell has one of the two accepted
    shapes (the row is not skipped). *)
Definition accepted (f : string) (r : row) : bool :=
  String.eqb (filename r) f && (is_bytes (image r) || is_envelope (image r)).

(** The captions the pass compares for [f], in scan order. *)
Definition accepted_captions (f : string) (rows : list row)
  : list (option string) :=
  map caption (filter (accepted f) rows).

(** The claim of C1 read on all rows of a filename: the captions of every
    row that names it, skipped or not. *)
Definition all_captions (f : string) (rows : list row) : list (option string) :=
  map caption (filter (fun r => String.eqb (filename r) f) rows).

(** The caption [c] is a string strictly shorter than [s]. *)
Definition shorter (s : string) (c : option string) : Prop :=
  match c with
  | Some t => String.length t < String.length s
  | None => False
  end.

(** The caption [c] is a string at most as long as [s]. *)
Definition not_longer (s : string) (c : option string) : Prop :=
  match c with
  | Some t => String.length t <= String.length s
  | None => False
  end.

(** [s] is the first caption of maximum length in [l]: everything before
    it is strictly shorter, nothing after it is longer. *)
Definition first_longest (s : string) (l : list (option string)) : Prop :=
  exists pre post,
    l = pre ++ Some s :: post
    /\ Forall (shorter s) pre /\ Forall (not_longer s) post.

(** The payload of the first row for [f] that yields one ([None] when no
    row does). *)
Fixpoint first_payload (f : string) (rows : list row) : pyval :=
  match rows with
  | [] => PyNone
  | r :: rest =>
      if String.eqb (filename r) f then
        match extract_image_bytes (image r) with
        | Some p => if is_None p then first_payload f rest else p
        | None => first_payload f rest
        end
      else first_payload f rest
  end.

(** The caption cell is not null. *)
Definition has_caption (r : row) : Prop := caption r <> None.

(** The caption is a string and the image cell, when it has an accepted
    shape, carries a payload. *)
Definition well_formed (r : row) : Prop :=
  caption r <> None
  /\ forall p, extract_image_bytes (image r) = Some p -> is_None p = false.

(** The two properties carried along the scan. *)
Definition payload_inv (d : image_data_t) (seen : list row) : Prop :=
  prompts_set d /\ forall f, stored_bytes d f = first_payload f seen.

Definition caption_inv (d : image_data_t) (seen : list row) : Prop :=
  forall f,
    match lookup d f with
    | Some e =>
        is_None (image_bytes e) = false
        /\ exists s, prompt_text e = Some s
                     /\ first_longest s (accepted_captions f seen)
    | None => accepted_captions f seen = []
    end.

(** The keys of the mapping stay distinct and come from the rows. *)
Definition keys_inv (names : list string) (d : image_data_t) : Prop :=
  NoDup (map fst d) /\ incl (map fst d) names.

(** *** The shard writer and the written samples *)

(** [sink.write] on each sample of [l] in turn. *)
Definition write_all (w : ShardWriter) (l : list sample) : ShardWriter :=
  fold_left sink_write l w.

(** The shard files left by a writer that was created, fed [l] and
    closed. *)
Definition run_writer (pat : nat -> string) (N : nat) (l : list sample)
  : list shard_file :=
  sink_close (write_all (ShardWriter_new pat N) l).

(** The number of samples in a shard file. *)
Definition shard_len (f : shard_file) : nat := List.length (shard_samples f).

(** The state of a writer with pattern [pat] and bound [N] that has
    received [written]: the closed shards are full, the open one holds
    the rest and is empty only when nothing was written, and the files
    are named by the shard numbers from 0. *)
Record writer_inv (pat : nat -> string) (N : nat) (w : ShardWriter)
    (written : list sample) : Prop := {
  inv_pattern : pattern w = pat;
  inv_maxcount : maxcount w = N;
  inv_open : exists cur,
      tarstream w = Some cur
      /\ flat_map shard_samples (finished w) ++ shard_samples cur = written
      /\ shard_len cur = count w
      /\ count w <= N
      /\ (written <> [] -> 0 < count w)
      /\ map shard_name (finished w ++ [cur]) = map pat (seq 0 (shard w));
  inv_full : Forall (fun f => shard_len f = N) (finished w);
  inv_shard : shard w = S (List.length (finished w))
}.

(** Whatever the bound, the samples on disk are those written, in
    order. *)
Definition all_samples (w : ShardWriter) : list sample :=
  flat_map shard_samples (finished w)
  ++ match tarstream w with Some f => shard_samples f | None => [] end.

(** The samples persisted by a run. *)
Definition written (o : outcome) : list sample :=
  flat_map shard_samples (shards o).

(** *** Inputs used to run the code *)

(** Two rows of one image: the first has a null image cell (it is
    skipped), the second is well-formed. *)
Definition rows_with_skipped : list row :=
  [ {| filename := "img.jpg"; caption := Some "a cat on a mat";
       image := PyNone |};
    {| filename := "img.jpg"; caption := Some "cat";
       image := PyBytes [x00; x00; x02; x02] |} ].

(** Three files; the second cannot be read.  The two captions of
    [a.jpg] of length 5 tie, and its second row is skipped. *)
Definition sample_files : list parquet_file :=
  [ {| path := "in/train-0.parquet";
       read_table := inr
         [ {| filename := "a.jpg"; caption := Some "one";
              image := PyBytes [x00; x00; x02; x02] |};
           {| filename := "a.jpg"; caption := Some "a much longer one";
              image := PyInt 7 |};
           {| filename := "a.jpg"; caption := Some "three";
              image := PyDict [("bytes", PyBytes [x01; x01; x03; x03]);
                               ("path", PyNone)] |};
           {| filename := "b.png"; caption := Some "bee";
              image := PyBytes [x01; x01; x04; x04] |} ] |};
    {| path := "in/train-1.parquet";
       read_table := inl (Exception "Parquet magic bytes not found") |};
    {| path := "in/train-2.parquet";
       read_table := inr
         [ {| filename := "a.jpg"; caption := Some "seven";
              image := PyBytes [x00; x00; x05; x05] |};
           {| filename := "b.png"; caption := Some "be";
              image := PyBytes [x00; x00; x06; x06] |} ] |} ].

(** One file of [n] rows, each with its own filename, a caption and a
    payload that the small decoder accepts. *)
Definition numbered_rows (n : nat) : list row :=
  map (fun i => {| filename := (fmt_06d i ++ ".jpg")%string;
                   caption := Some "a photo";
                   image := PyBytes [x00; x00; x02; x02] |})
      (seq 0 n).

Definition numbered_file (n : nat) : parquet_file :=
  {| path := "in/train-0.parquet"; read_table := inr (numbered_rows n) |}.

(** The entry a row leaves when its filename is new. *)
Definition fresh_item (r : row) : string * entry :=
  (filename r, {| prompt_text := caption r; image_bytes := image r |}).

(** Two images of one stem in different formats. *)
Definition same_stem_files : list parquet_file :=
  [ {| path := "in/train-0.parquet";
       read_table := inr
         [ {| filename := "a.jpg"; caption := Some "a photo";
              image := PyBytes [x00; x00; x04; x03] |};
           {| filename := "a.png"; caption := Some "a drawing";
              image := PyBytes [x01; x00; x04; x03] |} ] |} ].

(** The image cell of the row has one of the two accepted shapes. *)
Definition shape_ok (r : row) : bool :=
  is_bytes (image r) || is_envelope (image r).

(** The distinct elements of a list in the order of their first
    occurrence. *)
Definition first_seen (l : list string) : list string :=
  fold_left (fun acc x => if in_dec string_dec x acc then acc else acc ++ [x])
            l [].

(** Every entry of the mapping holds a caption and a payload taken from
    rows of [rows] that carry its own filename. *)
Definition from_rows (rows : list row) (d : image_data_t) : Prop :=
  forall f e,
    lookup d f = Some e ->
    (exists r, In r rows /\ filename r = f /\ shape_ok r = true
               /\ caption r = prompt_text e)
    /\ (exists r, In r rows /\ filename r = f
                  /\ extract_image_bytes (image r) = Some (image_bytes e)).

(** The warnings of the rows that are skipped, in row order. *)
Definition skip_warnings (rows : list row) : list event :=
  map (fun r => WarnImageField (filename r))
      (filter (fun r => negb (shape_ok r)) rows).

(** What step 1 prints when no row raises: one error line per file that
    cannot be read, and the warnings of the skipped rows of the others. *)
Definition step1_report (files : list parquet_file) : list event :=
  flat_map (fun pf => match read_table pf with
                      | inl ex => [ErrParquet (path pf) (descr_of ex)]
                      | inr rows => skip_warnings rows
                      end) files.

(** The entry of [f] holds the payload [b] and a prompt of at least [n]
    characters. *)
Definition holds_longer (f : string) (b : pyval) (n : nat)
    (d : image_data_t) : Prop :=
  exists e s,
    lookup d f = Some e
    /\ image_bytes e = b
    /\ prompt_text e = Some s
    /\ n <= String.length s.


(** [int(s)] on a non-empty string of decimal digits. *)
Definition read_decimal (s : string) : option nat :=
  option_map Nat.of_uint (NilZero.uint_of_string s).

(** *** What is printed *)

(** The line that reports a dropped entry of [name]: the warning of line
    127 or one of the two error lines of the validator. *)
Definition drop_report (name : string) (ev : event) : Prop :=
  ev = WarnMissing name
  \/ ev = ErrUnidentified name
  \/ exists descr, ev = ErrValidating name descr.

(** The same lines, as a test on a printed line. *)
Definition is_drop_report (ev : event) : bool :=
  match ev with
  | WarnMissing _ | ErrUnidentified _ | ErrValidating _ _ => true
  | _ => false
  end.

(** The two lines the validator prints on the way: the format warning and
    the conversion notice. *)
Definition notice (name : string) (ev : event) : Prop :=
  (exists fmt, ev = WarnUnexpectedFormat fmt name)
  \/ (exists m, ev = InfoConverting name m).

(** A 10 by 10 array of integers, with the usual minimum and maximum. *)
Definition grid_10x10 : ReadNpy.ndarray Z :=
  {| ReadNpy.shape := [10; 10]; ReadNpy.dtype := "int64";
     ReadNpy.flat := map Z.of_nat (seq 0 100) |}.

Definition list_min (l : list Z) : Z := fold_right Z.min (hd 0%Z l) l.

Definition list_max (l : list Z) : Z := fold_right Z.max (hd 0%Z l) l.

(** *** The validator and the writing pass, for a given image library *)

Section Vocabulary.

Variable pil : PIL.

(** The format tag the validator settles on (lines 27-31). *)
Definition chosen_format (img : Image pil) : string :=
  if str_in (detected_format pil img) supported_formats
  then detected_format pil img else "jpeg".

(** The test of line 34. *)
Definition needs_conversion (img : Image pil) : bool :=
  String.eqb (chosen_format img) "jpeg"
  && negb (String.eqb (mode pil img) "RGB").

(** A call made on the payload raises: wrapping it as a stream, the
    decode, the integrity check, or, where line 34 asks for them, the
    conversion or the JPEG encoder. *)
Inductive raises_in_validation : pyval -> Prop :=
| raises_stream x e :
    BytesIO x = inl e -> raises_in_validation x
| raises_decode b e :
    Image_open pil b = inl e -> raises_in_validation (PyBytes b)
| raises_verify b img e :
    Image_open pil b = inr img -> verify pil img = inl e ->
    raises_in_validation (PyBytes b)
| raises_convert b img e :
    Image_open pil b = inr img -> verify pil img = inr tt ->
    needs_conversion img = true -> convert_RGB pil img = inl e ->
    raises_in_validation (PyBytes b)
| raises_encode b img img' e :
    Image_open pil b = inr img -> verify pil img = inr tt ->
    needs_conversion img = true -> convert_RGB pil img = inr img' ->
    save_JPEG pil img' = inl e ->
    raises_in_validation (PyBytes b).

(** The samples the loop of step 2 hands to the sink, and what it
    prints. *)
Definition samples_of (items : image_data_t) : list sample :=
  flat_map (fun it => match snd (make_sample pil (fst it) (snd it)) with
                      | Some s => [s]
                      | None => []
                      end) items.

Definition step2_output (items : image_data_t) : list event :=
  flat_map (fun it => fst (make_sample pil (fst it) (snd it))) items.

(** The sample is written. *)
Definition passes (it : string * entry) : bool :=
  match snd (make_sample pil (fst it) (snd it)) with
  | Some _ => true
  | None => false
  end.

(** The filenames of the entries that are written, in order. *)
Definition written_names (items : image_data_t) : list string :=
  map fst (filter passes items).

End Vocabulary.

(* ================================================================== *)
(** ** Facts about the mapping *)

Lemma lookup_store_same (d : image_data_t) (k : string) (e : entry) :
  lookup (store d k e) k = Some e.
Proof.
  induction d as [|[k' e'] d IH]; simpl.
  - now rewrite String.eqb_refl.
  - destruct (String.eqb k' k) eqn:E; simpl; rewrite E; auto.
Qed.

Lemma lookup_store_other (d : image_data_t) (k k' : string) (e : entry) :
  k <> k' -> lookup (store d k e) k' = lookup d k'.
Proof.
  intros Hne. induction d as [|[k0 e0] d IH]; simpl.
  - destruct (String.eqb k k') eqn:E; auto.
    apply String.eqb_eq in E. contradiction.
  - destruct (String.eqb k0 k) eqn:E; simpl.
    + apply String.eqb_eq in E. subst k0.
      destruct (String.eqb k k') eqn:E'; auto.
      apply String.eqb_eq in E'. contradiction.
    + now rewrite IH.
Qed.

Lemma keys_store (d : image_data_t) (k : string) (e : entry) :
  map fst (store d k e) =
  if in_dec string_dec k (map fst d) then map fst d else map fst d ++ [k].
Proof.
  induction d as [|[k' e'] d IH]; simpl; auto.
  destruct (String.eqb k' k) eqn:E; simpl.
  - apply String.eqb_eq in E. subst.
    destruct (string_dec k k); [reflexivity | congruence].
  - apply String.eqb_neq in E. rewrite IH.
    destruct (string_dec k' k); [contradiction|].
    destruct (in_dec string_dec k (map fst d)); auto.
Qed.

Lemma NoDup_keys_store (d : image_data_t) (k : string) (e : entry) :
  NoDup (map fst d) -> NoDup (map fst (store d k e)).
Proof.
  intros H. rewrite keys_store.
  destruct (in_dec string_dec k (map fst d)); auto.
  induction (map fst d) as [|a l IH]; simpl in *.
  - repeat constructor. simpl. tauto.
  - inversion H; subst. constructor.
    + rewrite in_app_iff. simpl. intros [?|[->|[]]]; tauto.
    + apply IH; auto.
Qed.

Lemma extract_None_iff (v : pyval) :
  extract_image_bytes v = None <-> is_bytes v = false /\ is_envelope v = false.
Proof.
  destruct v; simpl; try tauto.
  - split; [discriminate | intros []; discriminate].
  - destruct (dict_get items "bytes"); split; try tauto; try discriminate.
    intros []; discriminate.
Qed.

(* ================================================================== *)
(** ** The aggregation pass, row by row *)

Lemma process_row_skip (d : image_data_t) (r : row) :
  extract_image_bytes (image r) = None ->
  process_row d r = (d, ([WarnImageField (filename r)], inr tt)).
Proof.
  intros H. unfold process_row. now rewrite H.
Qed.

Lemma process_row_update (d : image_data_t) (r : row) (c : string) (p : pyval) :
  caption r = Some c ->
  prompts_set d ->
  extract_image_bytes (image r) = Some p ->
  exists d',
    process_row d r = (d', ([], inr tt))
    /\ lookup d' (filename r)
       = Some (updated_entry (lookup d (filename r)) (caption r) p)
    /\ forall f, f <> filename r -> lookup d' f = lookup d f.
Proof.
  intros Hc Hwf Hp. unfold process_row, getitem. rewrite Hp.
  destruct (lookup d (filename r)) as [e|] eqn:L; simpl.
  - destruct (is_None (image_bytes e)) eqn:N.
    + eexists. split; [reflexivity|]. split.
      * apply lookup_store_same.
      * intros f Hf. apply lookup_store_other. congruence.
    + rewrite Hc. simpl.
      destruct (prompt_text e) as [s|] eqn:P; [|now apply Hwf in L].
      simpl. destruct (String.length s <? String.length c)%nat.
      * eexists. split; [reflexivity|]. split.
        -- apply lookup_store_same.
        -- intros f Hf. apply lookup_store_other. congruence.
      * exists d. auto.
  - eexists. split; [reflexivity|]. split.
    + apply lookup_store_same.
    + intros f Hf. rewrite !lookup_store_other by congruence. reflexivity.
Qed.

(** A scan that meets no null caption preserves any property of the
    mapping and the rows seen so far that each row preserves. *)
Section ScanInvariant.

Variable good : row -> Prop.
Variable P : image_data_t -> list row -> Prop.

Hypothesis good_caption : forall r, good r -> caption r <> None.
Hypothesis P_prompts : forall d seen, P d seen -> prompts_set d.
Hypothesis P_skip : forall d seen r,
  good r -> P d seen -> extract_image_bytes (image r) = None ->
  P d (seen ++ [r]).
Hypothesis P_update : forall d d' seen r p,
  good r -> P d seen -> extract_image_bytes (image r) = Some p ->
  lookup d' (filename r)
    = Some (updated_entry (lookup d (filename r)) (caption r) p) ->
  (forall f, f <> filename r -> lookup d' f = lookup d f) ->
  P d' (seen ++ [r]).

Lemma scan_row (d : image_data_t) (seen : list row) (r : row) :
  good r -> P d seen ->
  exists d' out, process_row d r = (d', (out, inr tt)) /\ P d' (seen ++ [r]).
Proof.
  intros Hg HP.
  destruct (extract_image_bytes (image r)) as [p|] eqn:E.
  - destruct (caption r) as [c|] eqn:C; [|now apply good_caption in Hg].
    destruct (@process_row_update d r c p C (P_prompts HP) E)
      as (d' & Hrun & Hl & Ho).
    exists d', []. split; auto.
    apply P_update with (d := d) (p := p); auto.
  - exists d, [WarnImageField (filename r)]. split.
    + now apply process_row_skip.
    + now apply P_skip.
Qed.

Lemma scan_rows (rows : list row) :
  forall d seen,
    Forall good rows -> P d seen ->
    exists d' out,
      process_rows d rows = (d', (out, inr tt)) /\ P d' (seen ++ rows).
Proof.
  induction rows as [|r rows IH]; intros d seen Hg HP; simpl.
  - exists d, []. rewrite app_nil_r. auto.
  - inversion Hg as [|? ? Hr Hrest]; subst.
    destruct (scan_row Hr HP) as (d1 & out1 & Hrun & HP1).
    rewrite Hrun.
    destruct (IH d1 (seen ++ [r]) Hrest HP1) as (d2 & out2 & Hrun2 & HP2).
    rewrite Hrun2. simpl.
    exists d2, (out1 ++ out2). split; auto.
    now rewrite <- app_assoc in HP2.
Qed.

Lemma scan_files (files : list parquet_file) :
  forall d seen,
    Forall good (rows_of files) -> P d seen ->
    P (fst (step1 d files)) (seen ++ rows_of files).
Proof.
  induction files as [|pf files IH]; intros d seen Hg HP; simpl.
  - now rewrite app_nil_r.
  - simpl in Hg. apply Forall_app in Hg. destruct Hg as [Hg1 Hg2].
    unfold process_file.
    destruct (read_table pf) as [ex|rows] eqn:R.
    + specialize (IH d seen Hg2 HP).
      destruct (step1 d files) as [d2 o2]. simpl in *. exact IH.
    + destruct (scan_rows Hg1 HP) as (d1 & out1 & Hrun & HP1).
      rewrite Hrun.
      specialize (IH d1 (seen ++ rows) Hg2 HP1).
      destruct (step1 d1 files) as [d2 o2]. simpl in *.
      now rewrite <- app_assoc in IH.
Qed.

End ScanInvariant.

(* ================================================================== *)
(** ** What the pass retains for a filename *)

Lemma first_payload_app (f : string) (l1 l2 : list row) :
  first_payload f (l1 ++ l2) =
  if is_None (first_payload f l1) then first_payload f l2
  else first_payload f l1.
Proof.
  induction l1 as [|r l1 IH]; simpl; auto.
  destruct (String.eqb (filename r) f); auto.
  destruct (extract_image_bytes (image r)) as [p|]; auto.
  destruct (is_None p) eqn:N; auto. now rewrite N.
Qed.

Lemma is_None_true (v : pyval) : is_None v = true -> v = PyNone.
Proof. destruct v; simpl; congruence. Qed.

Lemma extract_Some_shape (v p : pyval) :
  extract_image_bytes v = Some p -> is_bytes v || is_envelope v = true.
Proof.
  destruct v; simpl; try discriminate; auto.
  destruct (dict_get items "bytes"); auto; discriminate.
Qed.

Lemma extract_None_shape (v : pyval) :
  extract_image_bytes v = None -> is_bytes v || is_envelope v = false.
Proof.
  intros H. apply extract_None_iff in H. destruct H as [-> ->]. reflexivity.
Qed.

Lemma accepted_captions_snoc (f : string) (seen : list row) (r : row) :
  accepted_captions f (seen ++ [r]) =
  accepted_captions f seen ++ (if accepted f r then [caption r] else []).
Proof.
  unfold accepted_captions. rewrite filter_app, map_app. simpl.
  now destruct (accepted f r).
Qed.

Lemma accepted_other (f : string) (r : row) :
  f <> filename r -> accepted f r = false.
Proof.
  intros H. unfold accepted.
  destruct (String.eqb (filename r) f) eqn:E; auto.
  apply String.eqb_eq in E. congruence.
Qed.

(** A stored payload stays through one row, whatever the row does. *)
Lemma process_row_keeps (d : image_data_t) (r : row) (f : string) :
  is_None (stored_bytes d f) = false ->
  stored_bytes (fst (process_row d r)) f = stored_bytes d f.
Proof.
  intros Hs. unfold process_row, getitem.
  destruct (extract_image_bytes (image r)) as [p|]; auto.
  destruct (string_dec f (filename r)) as [->|Hne].
  - unfold stored_bytes in *.
    destruct (lookup d (filename r)) as [e|] eqn:L; [|discriminate].
    rewrite Hs.
    destruct (py_len (caption r)), (py_len (prompt_text e)); simpl;
      try (now rewrite L).
    destruct (n0 <? n)%nat; simpl.
    + now rewrite lookup_store_same.
    + now rewrite L.
  - assert (Hst : forall d0 e0, stored_bytes (store d0 (filename r) e0) f
                                = stored_bytes d0 f).
    { intros. unfold stored_bytes. rewrite lookup_store_other; congruence. }
    destruct (lookup d (filename r)) as [e|] eqn:L.
    + destruct (is_None (image_bytes e)); simpl; auto.
      destruct (py_len (caption r)), (py_len (prompt_text e)); simpl; auto.
      destruct (n0 <? n)%nat; simpl; auto.
    + simpl. now rewrite !Hst.
Qed.

Lemma process_rows_keeps (rows : list row) :
  forall d f,
    is_None (stored_bytes d f) = false ->
    stored_bytes (fst (process_rows d rows)) f = stored_bytes d f.
Proof.
  induction rows as [|r rows IH]; intros d f Hs; simpl; auto.
  pose proof (process_row_keeps d r f Hs) as H1.
  destruct (process_row d r) as [d1 [out [ex|u]]]; simpl in *; auto.
  assert (Hs1 : is_None (stored_bytes d1 f) = false) by now rewrite H1.
  specialize (IH d1 f Hs1).
  destruct (process_rows d1 rows) as [d2 m]. simpl in *. congruence.
Qed.

Lemma process_file_keeps (d : image_data_t) (pf : parquet_file) (f : string) :
  is_None (stored_bytes d f) = false ->
  stored_bytes (fst (process_file d pf)) f = stored_bytes d f.
Proof.
  intros Hs. unfold process_file.
  destruct (read_table pf) as [ex|rows]; auto.
  pose proof (process_rows_keeps rows d f Hs) as H.
  destruct (process_rows d rows) as [d1 [out [ex|u]]]; auto.
Qed.

Lemma step1_keeps (files : list parquet_file) :
  forall d f,
    is_None (stored_bytes d f) = false ->
    stored_bytes (fst (step1 d files)) f = stored_bytes d f.
Proof.
  induction files as [|pf files IH]; intros d f Hs; simpl; auto.
  pose proof (process_file_keeps d pf f Hs) as H1.
  destruct (process_file d pf) as [d1 o1]. simpl in H1.
  assert (Hs1 : is_None (stored_bytes d1 f) = false) by now rewrite H1.
  specialize (IH d1 f Hs1).
  destruct (step1 d1 files) as [d2 o2]. simpl in *. congruence.
Qed.

Lemma updated_entry_prompt (old : option entry) (c : option string) (p : pyval) :
  c <> None ->
  (forall e, old = Some e -> prompt_text e <> None) ->
  prompt_text (updated_entry old c p) <> None.
Proof.
  intros Hc Hold. unfold updated_entry.
  destruct old as [e|]; simpl; auto.
  specialize (Hold e eq_refl).
  destruct (is_None (image_bytes e)); simpl; auto.
  destruct (prompt_text e) eqn:P; auto. destruct c; auto.
  destruct (_ <? _)%nat; simpl; auto. now rewrite P.
Qed.

Lemma updated_entry_bytes (old : option entry) (c : option string) (p : pyval) :
  image_bytes (updated_entry old c p) =
  match old with
  | Some e => if is_None (image_bytes e) then p else image_bytes e
  | None => p
  end.
Proof.
  unfold updated_entry. destruct old as [e|]; auto.
  destruct (is_None (image_bytes e)); auto.
  destruct (prompt_text e); auto. destruct c; auto.
  now destruct (_ <? _)%nat.
Qed.

Lemma payload_inv_scan (files : list parquet_file) :
  Forall has_caption (rows_of files) ->
  payload_inv (fst (step1 [] files)) (rows_of files).
Proof.
  intros Hg.
  apply (@scan_files has_caption payload_inv) with (seen := []) (d := []);
    auto.
  - now intros d seen [H _].
  - (* a skipped row *)
    intros d seen r _ [Hw Hs] E. split; auto.
    intros f. rewrite first_payload_app, Hs. simpl. rewrite E.
    destruct (String.eqb (filename r) f);
      now destruct (is_None (first_payload f seen)) eqn:N;
        [apply is_None_true in N|].
  - (* a row with a payload *)
    intros d d' seen r p Hc [Hw Hs] E Hl Ho. split.
    + intros f e L. destruct (string_dec f (filename r)) as [->|Hne].
      * rewrite Hl in L. inversion L; subst.
        apply updated_entry_prompt; auto. intros e0 L0. now apply Hw in L0.
      * rewrite Ho in L by auto. now apply Hw in L.
    + intros f. rewrite first_payload_app, <- Hs. simpl.
      destruct (string_dec f (filename r)) as [->|Hne].
      * rewrite String.eqb_refl, E. unfold stored_bytes at 1. rewrite Hl.
        rewrite updated_entry_bytes. unfold stored_bytes.
        destruct (lookup d (filename r)) as [e|]; simpl.
        -- destruct (is_None (image_bytes e)); auto.
           destruct (is_None p) eqn:N; auto. now apply is_None_true in N.
        -- destruct (is_None p) eqn:N; auto. now apply is_None_true in N.
      * assert (E' : String.eqb (filename r) f = false)
          by (apply String.eqb_neq; congruence).
        rewrite E'. unfold stored_bytes. rewrite Ho by auto.
        destruct (lookup d f) as [e|]; simpl; auto.
        destruct (is_None (image_bytes e)) eqn:N; auto.
        now apply is_None_true in N.
  - split; [intros f e L; discriminate | reflexivity].
Qed.

Lemma first_longest_single (c : string) : first_longest c [Some c].
Proof. exists [], []. split; [reflexivity|]. split; constructor. Qed.

Lemma first_longest_snoc (s c : string) (l : list (option string)) :
  first_longest s l ->
  first_longest
    (if (String.length s <? String.length c)%nat then c else s)
    (l ++ [Some c]).
Proof.
  intros (pre & post & -> & Hpre & Hpost).
  destruct (String.length s <? String.length c)%nat eqn:E.
  - apply Nat.ltb_lt in E.
    exists (pre ++ Some s :: post), [].
    split; [reflexivity|]. split; [|constructor].
    apply Forall_app. split; [|constructor].
    + eapply Forall_impl; [|exact Hpre].
      intros [t|]; simpl; [lia | tauto].
    + exact E.
    + eapply Forall_impl; [|exact Hpost].
      intros [t|]; simpl; [lia | tauto].
  - apply Nat.ltb_ge in E.
    exists pre, (post ++ [Some c]).
    split; [now rewrite <- app_assoc|]. split; [exact Hpre|].
    apply Forall_app. split; [exact Hpost|].
    constructor; [exact E | constructor].
Qed.

Lemma caption_inv_scan (files : list parquet_file) :
  Forall well_formed (rows_of files) ->
  caption_inv (fst (step1 [] files)) (rows_of files).
Proof.
  intros Hg.
  apply (@scan_files well_formed caption_inv) with (seen := []) (d := []);
    auto.
  - now intros r [H _].
  - intros d seen H f e L. specialize (H f). rewrite L in H.
    destruct H as (_ & s & -> & _). discriminate.
  - (* a skipped row *)
    intros d seen r _ H E f. specialize (H f).
    rewrite accepted_captions_snoc. unfold accepted.
    rewrite (extract_None_shape _ E), andb_false_r, app_nil_r. exact H.
  - (* a row with a payload *)
    intros d d' seen r p [Hc Hp] H E Hl Ho f.
    rewrite accepted_captions_snoc.
    destruct (string_dec f (filename r)) as [->|Hne].
    + unfold accepted.
      rewrite String.eqb_refl, (extract_Some_shape _ E). simpl.
      rewrite Hl. specialize (H (filename r)). unfold updated_entry.
      destruct (caption r) as [c|] eqn:C; [|congruence].
      destruct (lookup d (filename r)) as [e|]; simpl.
      * destruct H as (N & s & Ps & Hfl). rewrite N, Ps.
        pose proof (first_longest_snoc c Hfl) as Hnew.
        destruct (String.length s <? String.length c)%nat; simpl.
        -- split; eauto.
        -- split; eauto.
      * rewrite H. split; [now apply Hp|].
        exists c. split; auto. apply first_longest_single.
    + rewrite accepted_other, app_nil_r by auto.
      rewrite Ho by auto. apply H.
  - intros f. reflexivity.
Qed.

(* ================================================================== *)
(** ** Properties of the aggregation pass *)

(** C9: a row whose image cell is neither bytes nor a dict with a
    ['bytes'] key prints the warning and leaves the mapping as it was, and
    the scan of the file goes on with the rows after it from that same
    mapping: the mapping, the rest of the output and the outcome are those
    of the remaining rows. *)
Theorem malformed_image_row_skipped (d : image_data_t) (r : row)
    (rest : list row) :
  is_bytes (image r) = false ->
  is_envelope (image r) = false ->
  process_row d r = (d, ([WarnImageField (filename r)], inr tt))
  /\ process_rows d (r :: rest)
     = (fst (process_rows d rest),
        (WarnImageField (filename r) :: fst (snd (process_rows d rest)),
         snd (snd (process_rows d rest)))).
Proof.
  intros Hb He.
  assert (E : extract_image_bytes (image r) = None)
    by (apply extract_None_iff; auto).
  split.
  - now apply process_row_skip.
  - simpl. rewrite (process_row_skip d r E).
    now destruct (process_rows d rest) as [d' [out res]].
Qed.

Lemma malformed_image_row_skipped_witness :
  process_row [("b.png", default_entry)]
    {| filename := "a.jpg"; caption := Some "c"; image := PyInt 7 |}
  = ([("b.png", default_entry)], ([WarnImageField "a.jpg"], inr tt))
  /\ process_rows [("b.png", default_entry)]
       ({| filename := "a.jpg"; caption := Some "c"; image := PyInt 7 |}
        :: rows_with_skipped)
     = (fst (process_rows [("b.png", default_entry)] rows_with_skipped),
        (WarnImageField "a.jpg"
           :: fst (snd (process_rows [("b.png", default_entry)]
                          rows_with_skipped)),
         snd (snd (process_rows [("b.png", default_entry)]
                     rows_with_skipped)))).
Proof.
  apply (@malformed_image_row_skipped [("b.png", default_entry)]
           {| filename := "a.jpg"; caption := Some "c"; image := PyInt 7 |}
           rows_with_skipped); reflexivity.
Defined.

(** C3: the stored image bytes of a filename are set once.  First, bytes
    that are stored stay the same through any further rows and files,
    whatever those hold.  Second, after a pass from the empty mapping over
    rows with non-null captions, the stored payload of every filename is
    the payload of the first row for it that yielded one. *)
Theorem image_bytes_set_once :
  (forall d rows files f,
     is_None (stored_bytes d f) = false ->
     stored_bytes (fst (step1 (fst (process_rows d rows)) files)) f
     = stored_bytes d f)
  /\ (forall files f,
        Forall has_caption (rows_of files) ->
        stored_bytes (fst (step1 [] files)) f
        = first_payload f (rows_of files)).
Proof.
  split.
  - intros d rows files f Hs.
    rewrite step1_keeps; rewrite process_rows_keeps; auto.
  - intros files f Hg. now apply payload_inv_scan.
Qed.

Lemma image_bytes_set_once_witness :
  stored_bytes (fst (step1 [] sample_files)) "a.jpg"
  = PyBytes [x00; x00; x02; x02]
  /\ stored_bytes
       (fst (step1
               (fst (process_rows
                       [("a.jpg", {| prompt_text := Some "kept";
                                     image_bytes := PyBytes [x09] |})]
                       rows_with_skipped))
               sample_files))
       "a.jpg"
     = PyBytes [x09].
Proof.
  destruct image_bytes_set_once as [Hkeep Hfirst]. split.
  - rewrite (Hfirst sample_files "a.jpg"); [reflexivity|].
    repeat constructor; unfold has_caption; simpl; discriminate.
  - rewrite (Hkeep [("a.jpg", {| prompt_text := Some "kept";
                                 image_bytes := PyBytes [x09] |})]
               rows_with_skipped sample_files "a.jpg");
      reflexivity.
Defined.

(** C1, as stated, fails: the longest caption of [img.jpg] sits on a row
    whose image cell is malformed, the row is skipped before its caption is
    looked at, and the stored prompt is the shorter caption. *)
Lemma longest_of_all_rows_counterexample :
  let files := [ {| path := "in/train-0.parquet";
                    read_table := inr rows_with_skipped |} ] in
  lookup (fst (step1 [] files)) "img.jpg"
  = Some {| prompt_text := Some "cat";
            image_bytes := PyBytes [x00; x00; x02; x02] |}
  /\ all_captions "img.jpg" (rows_of files) = [Some "a cat on a mat"; Some "cat"]
  /\ ~ first_longest "cat" (all_captions "img.jpg" (rows_of files)).
Proof.
  split; [reflexivity|]. split; [reflexivity|].
  intros (pre & post & Heq & Hpre & _).
  destruct pre as [|x pre]; simpl in Heq.
  - inversion Heq.
  - inversion Heq; subst. inversion Hpre as [|? ? Hx _]; subst.
    simpl in Hx. lia.
Qed.

(** C1, amended: over the rows of the files that could be read, with
    string captions and payload-bearing image cells, the entry of a
    filename holds the first caption of maximum length among the rows for
    it that were not skipped; a filename has no entry exactly when no
    such row exists. *)
Theorem longest_accepted_caption_kept (files : list parquet_file) (f : string) :
  Forall well_formed (rows_of files) ->
  match lookup (fst (step1 [] files)) f with
  | Some e =>
      exists s, prompt_text e = Some s
                /\ first_longest s (accepted_captions f (rows_of files))
  | None => accepted_captions f (rows_of files) = []
  end.
Proof.
  intros Hg. pose proof (caption_inv_scan files Hg f) as H.
  destruct (lookup (fst (step1 [] files)) f) as [e|]; auto.
  now destruct H as [_ H].
Qed.

(** Two paths the amended statement leaves aside.  An envelope whose
    byte field is [None] stores no bytes, so the next row of the filename
    takes the first branch again and replaces the prompt, here by a shorter
    one. *)
Example null_envelope_resets_prompt :
  lookup
    (fst (process_rows []
            [ {| filename := "img.jpg"; caption := Some "a cat on a mat";
                 image := PyDict [("bytes", PyNone); ("path", PyStr "img.jpg")] |};
              {| filename := "img.jpg"; caption := Some "cat";
                 image := PyDict [("bytes", PyBytes [x00; x00; x02; x02])] |} ]))
    "img.jpg"
  = Some {| prompt_text := Some "cat";
            image_bytes := PyBytes [x00; x00; x02; x02] |}.
Proof. reflexivity. Qed.

(** A null caption that meets a stored entry raises in [len]: the rest of
    the file is not scanned, and the pass goes on with the next file. *)
Example null_caption_ends_file :
  process_file []
    {| path := "in/train-0.parquet";
       read_table := inr
         [ {| filename := "g.jpg"; caption := Some "gnu";
              image := PyBytes [x00; x00; x02; x02] |};
           {| filename := "g.jpg"; caption := None;
              image := PyBytes [x00; x00; x02; x02] |};
           {| filename := "f.jpg"; caption := Some "fox";
              image := PyBytes [x00; x00; x03; x03] |} ] |}
  = ([("g.jpg", {| prompt_text := Some "gnu";
                   image_bytes := PyBytes [x00; x00; x02; x02] |})],
     [ErrParquet "in/train-0.parquet"
         "object of type 'NoneType' has no len()"]).
Proof. reflexivity. Qed.

Lemma longest_accepted_caption_kept_witness :
  Forall well_formed (rows_of sample_files)
  /\ exists s,
       prompt_text {| prompt_text := Some "three";
                      image_bytes := PyBytes [x00; x00; x02; x02] |} = Some s
       /\ first_longest s [Some "one"; Some "three"; Some "seven"].
Proof.
  assert (Hg : Forall well_formed (rows_of sample_files)).
  { repeat constructor; try discriminate;
      simpl; intros p H; inversion H; reflexivity. }
  split; [exact Hg|].
  exact (longest_accepted_caption_kept sample_files "a.jpg" Hg).
Defined.

(* ================================================================== *)
(** ** Properties of the image validator *)

Section ValidatorFacts.

Variable pil : PIL.

Lemma body_raises_rejected (x : pyval) (name : string) (out : list event)
    (e : exn) :
  validate_body pil x name = (out, inl e) ->
  snd (get_image_bytes_validate_and_dims pil x name) = None.
Proof.
  intros H. unfold get_image_bytes_validate_and_dims. rewrite H. simpl.
  now destruct e.
Qed.

Lemma raises_body (x : pyval) (name : string) :
  raises_in_validation pil x ->
  exists out e, validate_body pil x name = (out, inl e).
Proof.
  intros H. unfold validate_body.
  destruct H as [x e H | b e H | b img e H1 H2 | b img e H1 H2 H3 H4
                 | b img img' e H1 H2 H3 H4 H5]; simpl.
  - rewrite H. simpl. eauto.
  - rewrite H. simpl. eauto.
  - rewrite H1. simpl. rewrite H2. simpl. eauto.
  - rewrite H1. simpl. rewrite H2. simpl.
    destruct (size pil img) as [w h].
    unfold needs_conversion, chosen_format in H3.
    destruct (str_in (detected_format pil img) supported_formats);
      simpl in H3 |- *; rewrite H3; simpl; rewrite H4; simpl; eauto.
  - rewrite H1. simpl. rewrite H2. simpl.
    destruct (size pil img) as [w h].
    unfold needs_conversion, chosen_format in H3.
    destruct (str_in (detected_format pil img) supported_formats);
      simpl in H3 |- *; rewrite H3; simpl; rewrite H4; simpl; rewrite H5;
      simpl; eauto.
Qed.

Lemma raises_rejected (x : pyval) (name : string) :
  raises_in_validation pil x ->
  snd (get_image_bytes_validate_and_dims pil x name) = None.
Proof.
  intros H. destruct (raises_body name H) as (out & e & Hb).
  eapply body_raises_rejected; eauto.
Qed.

(** The tag of an accepted image is one of the three supported ones. *)
Lemma validated_format_supported (x : pyval) (name : string)
    (b : bytes) (fmt : string) (w h : Z) :
  snd (get_image_bytes_validate_and_dims pil x name) = Some (b, fmt, w, h) ->
  In fmt supported_formats.
Proof.
  unfold get_image_bytes_validate_and_dims, validate_body.
  destruct (BytesIO x) as [e|raw]; simpl; [now destruct e|].
  destruct (Image_open pil raw) as [e|img]; simpl; [now destruct e|].
  destruct (verify pil img) as [e|[]]; simpl; [now destruct e|].
  destruct (size pil img) as [w0 h0].
  destruct (str_in (detected_format pil img) supported_formats) eqn:S; simpl.
  - assert (Hin : In (detected_format pil img) supported_formats).
    { unfold str_in in S. apply existsb_exists in S.
      destruct S as (y & Hy & E). apply String.eqb_eq in E. now subst. }
    destruct (String.eqb (detected_format pil img) "jpeg"
              && negb (String.eqb (mode pil img) "RGB")); simpl.
    + destruct (convert_RGB pil img) as [e|img']; simpl; [now destruct e|].
      destruct (save_JPEG pil img') as [e|b']; simpl; [now destruct e|].
      intros H. inversion H; subst. exact Hin.
    + destruct (String.eqb (detected_format pil img) "png"
                && String.eqb (mode pil img) "RGBA"); simpl;
        intros H; inversion H; subst; exact Hin.
  - destruct (negb (String.eqb (mode pil img) "RGB")); simpl.
    + destruct (convert_RGB pil img) as [e|img']; simpl; [now destruct e|].
      destruct (save_JPEG pil img') as [e|b']; simpl; [now destruct e|].
      intros H. inversion H; subst. simpl. auto.
    + intros H. inversion H; subst. simpl. auto.
Qed.

End ValidatorFacts.

(** C5: a payload that decodes, passes the integrity check and is a PNG in
    mode RGBA comes back as it went in, with the tag ["png"] and its
    dimensions, and nothing is printed. *)
Theorem rgba_png_passthrough (pil : PIL) (b : bytes) (name : string)
    (img : Image pil) :
  Image_open pil b = inr img ->
  verify pil img = inr tt ->
  format pil img = Some "PNG" ->
  mode pil img = "RGBA" ->
  get_image_bytes_validate_and_dims pil (PyBytes b) name
  = ([], Some (b, "png", fst (size pil img), snd (size pil img))).
Proof.
  intros Ho Hv Hf Hm.
  unfold get_image_bytes_validate_and_dims, validate_body, detected_format.
  simpl. rewrite Ho. simpl. rewrite Hv. simpl.
  destruct (size pil img) as [w h]. rewrite Hf, Hm. reflexivity.
Qed.

Lemma rgba_png_passthrough_witness :
  get_image_bytes_validate_and_dims Stub.pil
    (PyBytes [x01; x01; x08; x06; x2a]) "a.png"
  = ([], Some ([x01; x01; x08; x06; x2a], "png", 8%Z, 6%Z)).
Proof.
  exact (@rgba_png_passthrough Stub.pil [x01; x01; x08; x06; x2a] "a.png"
           {| Stub.i_format := Some "PNG"; Stub.i_mode := "RGBA";
              Stub.i_width := x08; Stub.i_height := x06;
              Stub.i_rest := [x2a] |}
           eq_refl eq_refl eq_refl eq_refl).
Defined.

(** C2, what the code does: a payload that decodes to an image in mode RGB
    of a format outside the supported set is tagged ["jpeg"] after the
    warning, and the bytes returned are the input bytes, not a JPEG
    encoding of the image. *)
Theorem unsupported_rgb_returned_as_is (pil : PIL) (b : bytes)
    (name fmt : string) (img : Image pil) :
  Image_open pil b = inr img ->
  verify pil img = inr tt ->
  format pil img = Some fmt ->
  fmt <> "" ->
  str_in (lower fmt) supported_formats = false ->
  mode pil img = "RGB" ->
  get_image_bytes_validate_and_dims pil (PyBytes b) name
  = ([WarnUnexpectedFormat (lower fmt) name],
     Some (b, "jpeg", fst (size pil img), snd (size pil img))).
Proof.
  intros Ho Hv Hf Hne Hs Hm.
  unfold get_image_bytes_validate_and_dims, validate_body, detected_format.
  simpl. rewrite Ho. simpl. rewrite Hv. simpl.
  destruct (size pil img) as [w h]. rewrite Hf.
  apply String.eqb_neq in Hne. rewrite Hne, Hs. simpl. rewrite Hm.
  reflexivity.
Qed.

Lemma unsupported_rgb_returned_as_is_witness :
  get_image_bytes_validate_and_dims Stub.pil
    (PyBytes [x03; x00; x08; x06; x2a]) "a.bmp"
  = ([WarnUnexpectedFormat "bmp" "a.bmp"],
     Some ([x03; x00; x08; x06; x2a], "jpeg", 8%Z, 6%Z)).
Proof.
  refine (@unsupported_rgb_returned_as_is Stub.pil [x03; x00; x08; x06; x2a]
            "a.bmp" "BMP"
            {| Stub.i_format := Some "BMP"; Stub.i_mode := "RGB";
               Stub.i_width := x08; Stub.i_height := x06;
               Stub.i_rest := [x2a] |}
            eq_refl eq_refl eq_refl _ eq_refl eq_refl).
  discriminate.
Defined.

(** The sibling path: in any other mode the same image is converted and
    re-encoded. *)
Lemma unsupported_non_rgb_reencoded (pil : PIL) (b b' : bytes)
    (name fmt : string) (img img' : Image pil) :
  Image_open pil b = inr img ->
  verify pil img = inr tt ->
  format pil img = Some fmt ->
  fmt <> "" ->
  str_in (lower fmt) supported_formats = false ->
  mode pil img <> "RGB" ->
  convert_RGB pil img = inr img' ->
  save_JPEG pil img' = inr b' ->
  get_image_bytes_validate_and_dims pil (PyBytes b) name
  = ([WarnUnexpectedFormat (lower fmt) name;
      InfoConverting name (mode pil img)],
     Some (b', "jpeg", fst (size pil img), snd (size pil img))).
Proof.
  intros Ho Hv Hf Hne Hs Hm Hc He.
  unfold get_image_bytes_validate_and_dims, validate_body, detected_format.
  simpl. rewrite Ho. simpl. rewrite Hv. simpl.
  destruct (size pil img) as [w h]. rewrite Hf.
  apply String.eqb_neq in Hne. rewrite Hne, Hs. simpl.
  apply String.eqb_neq in Hm. rewrite Hm. simpl. rewrite Hc. simpl.
  rewrite He. reflexivity.
Qed.

(* ================================================================== *)
(** ** The shard writer *)

Lemma writer_inv_new (pat : nat -> string) (N : nat) :
  writer_inv pat N (ShardWriter_new pat N) [].
Proof.
  constructor; simpl; auto.
  eexists. repeat split; simpl; auto with arith. congruence.
Qed.

Lemma writer_inv_write (pat : nat -> string) (N : nat) (w : ShardWriter)
    (written : list sample) (s : sample) :
  0 < N ->
  writer_inv pat N w written ->
  writer_inv pat N (sink_write w s) (written ++ [s]).
Proof.
  intros HN [Hp Hm (cur & Ht & Hw & Hl & Hc & Hz & Hn) Hf Hs].
  unfold sink_write. rewrite Ht, Hm.
  destruct (N <=? count w)%nat eqn:E.
  - (* the open shard is full: it is closed and the next one opened *)
    apply Nat.leb_le in E. assert (count w = N) by lia.
    unfold next_stream, finish. rewrite Ht. simpl.
    constructor; simpl; auto.
    + eexists. split; [reflexivity|]. simpl.
      rewrite flat_map_app. simpl. rewrite app_nil_r, Hw.
      repeat split; auto; try lia.
      change (pat 0 :: map pat (seq 1 (shard w)))
        with (map pat (seq 0 (S (shard w)))).
      rewrite Hp, seq_S, (map_app pat), <- Hn.
      rewrite (map_app shard_name (finished w ++ [cur])). reflexivity.
    + apply Forall_app. split; auto. repeat constructor. congruence.
    + rewrite length_app. simpl. lia.
  - apply Nat.leb_gt in E. rewrite Ht. simpl.
    constructor; simpl; auto.
    eexists. split; [reflexivity|]. simpl.
    rewrite app_assoc, Hw. unfold shard_len in *. simpl.
    rewrite length_app. simpl.
    repeat split; auto; try lia.
    rewrite <- Hn, !map_app. reflexivity.
Qed.

Lemma writer_inv_write_all (pat : nat -> string) (N : nat) (l : list sample) :
  0 < N ->
  forall w written,
    writer_inv pat N w written ->
    writer_inv pat N (write_all w l) (written ++ l).
Proof.
  intros HN. induction l as [|s l IH]; intros w written H; simpl.
  - now rewrite app_nil_r.
  - replace (written ++ s :: l) with ((written ++ [s]) ++ l)
      by now rewrite <- app_assoc.
    apply IH. now apply writer_inv_write.
Qed.

Lemma all_samples_next_stream (w : ShardWriter) :
  all_samples (next_stream w) = all_samples w.
Proof.
  unfold all_samples, next_stream, finish.
  destruct (tarstream w); simpl.
  - rewrite flat_map_app. simpl. now rewrite !app_nil_r.
  - reflexivity.
Qed.

Lemma all_samples_write (w : ShardWriter) (s : sample) :
  all_samples (sink_write w s) = all_samples w ++ [s].
Proof.
  unfold sink_write.
  set (w' := match tarstream w with
             | Some _ =>
                 if (maxcount w <=? count w)%nat then next_stream w else w
             | None => next_stream w
             end).
  assert (Hs : all_samples w' = all_samples w).
  { subst w'. destruct (tarstream w) eqn:T.
    - destruct (maxcount w <=? count w)%nat;
        auto using all_samples_next_stream.
    - apply all_samples_next_stream. }
  assert (Ht : tarstream w' <> None).
  { subst w'. destruct (tarstream w) eqn:T.
    - destruct (maxcount w <=? count w)%nat; simpl; congruence.
    - simpl. congruence. }
  rewrite <- Hs. unfold all_samples. simpl.
  destruct (tarstream w'); [|congruence].
  simpl. now rewrite app_assoc.
Qed.

Lemma all_samples_write_all (l : list sample) :
  forall w, all_samples (write_all w l) = all_samples w ++ l.
Proof.
  unfold write_all. induction l as [|s l IH]; intros w; simpl.
  - now rewrite app_nil_r.
  - rewrite IH, all_samples_write. now rewrite <- app_assoc.
Qed.

Lemma sink_close_samples (w : ShardWriter) :
  flat_map shard_samples (sink_close w) = all_samples w.
Proof.
  unfold sink_close, finish, all_samples.
  destruct (tarstream w); simpl.
  - rewrite flat_map_app. simpl. now rewrite !app_nil_r.
  - now rewrite app_nil_r.
Qed.

Lemma run_writer_samples (pat : nat -> string) (N : nat) (l : list sample) :
  flat_map shard_samples (run_writer pat N l) = l.
Proof.
  unfold run_writer. now rewrite sink_close_samples, all_samples_write_all.
Qed.

Lemma full_shards_length (N : nat) (fs : list shard_file) :
  Forall (fun f => shard_len f = N) fs ->
  List.length (flat_map shard_samples fs) = N * List.length fs
  /\ map shard_len fs = repeat N (List.length fs).
Proof.
  induction 1 as [|f fs Hf _ [IH1 IH2]]; simpl.
  - split; [lia | reflexivity].
  - rewrite length_app, IH1, IH2, Hf. unfold shard_len in Hf. rewrite Hf.
    split; [lia | reflexivity].
Qed.

(** The number of full shards and the size of the last one, from the
    number of samples. *)
Lemma run_writer_lengths (pat : nat -> string) (N : nat) (l : list sample) :
  0 < N -> l <> [] ->
  map shard_len (run_writer pat N l)
  = repeat N ((List.length l - 1) / N)
    ++ [List.length l - N * ((List.length l - 1) / N)].
Proof.
  intros HN Hl.
  destruct (@writer_inv_write_all pat N l HN _ [] (writer_inv_new pat N))
    as [_ _ (cur & Ht & Hw & Hc & Hle & Hz & _) Hf _].
  simpl in Hw, Hz. specialize (Hz Hl).
  unfold run_writer, sink_close, finish. rewrite Ht. simpl.
  destruct (full_shards_length Hf) as [Hlen Hmap].
  rewrite map_app, Hmap. simpl.
  assert (Hn : List.length l
               = N * List.length (finished (write_all (ShardWriter_new pat N) l))
                 + shard_len cur).
  { rewrite <- Hw at 1. rewrite length_app, Hlen. reflexivity. }
  set (k := List.length (finished (write_all (ShardWriter_new pat N) l))) in *.
  assert (Hk : k = (List.length l - 1) / N).
  { apply Nat.div_unique with (r := shard_len cur - 1); lia. }
  rewrite <- Hk. f_equal. f_equal. lia.
Qed.

(** The writer on its own: created with the pattern of line 73 and a
    positive bound [N], fed the samples [l] in arrival order and closed,
    it leaves shard files that hold exactly [l] in order (so every sample
    sits whole in one shard), each with at most [N] samples, named by the
    shard numbers 0, 1, 2, ... through ["%06d"]; for 25000 samples and
    [N = 10000] these are three files of 10000, 10000 and 5000 samples
    numbered 000000 to 000002. *)
Theorem shards_of_writer (output_dir output_prefix : string) (N : nat)
    (l : list sample) :
  0 < N ->
  let out := run_writer (shard_pattern output_dir output_prefix) N l in
  flat_map shard_samples out = l
  /\ Forall (fun f => shard_len f <= N) out
  /\ map shard_name out
     = map (shard_pattern output_dir output_prefix) (seq 0 (List.length out))
  /\ (N = 10000 -> List.length l = 25000 ->
      map shard_len out = [10000; 10000; 5000]
      /\ map shard_name out
         = [ os_path_join output_dir (output_prefix ++ "-000000.tar")%string;
             os_path_join output_dir (output_prefix ++ "-000001.tar")%string;
             os_path_join output_dir (output_prefix ++ "-000002.tar")%string ]).
Proof.
  intros HN out.
  set (pat := shard_pattern output_dir output_prefix) in *.
  assert (Hnames : map shard_name out = map pat (seq 0 (List.length out))
                   /\ Forall (fun f => shard_len f <= N) out).
  { destruct (@writer_inv_write_all pat N l HN _ [] (writer_inv_new pat N))
      as [_ _ (cur & Ht & _ & Hc & Hle & _ & Hn) Hf Hs].
    subst out. unfold run_writer, sink_close, finish.
    set (w := write_all (ShardWriter_new pat N) l) in *.
    rewrite Ht. simpl finished.
    replace (List.length (finished w ++ [cur])) with (shard w)
      by (rewrite length_app, Hs; simpl; lia).
    split; auto.
    apply Forall_app. split.
    - eapply Forall_impl; [|exact Hf]. simpl. intros f ->. lia.
    - constructor; [lia | constructor]. }
  destruct Hnames as [Hnames Hbound].
  split; [apply run_writer_samples|].
  split; [exact Hbound|]. split; [exact Hnames|].
  intros HN' Hlen.
  assert (Hl : l <> []) by (intros ->; discriminate Hlen).
  assert (Hlens : map shard_len out = [10000; 10000; 5000]).
  { subst out. rewrite (run_writer_lengths pat HN Hl), Hlen, HN'.
    vm_compute. reflexivity. }
  split; [exact Hlens|].
  assert (H3 : List.length out = 3).
  { rewrite <- (length_map shard_len), Hlens. reflexivity. }
  rewrite Hnames, H3. reflexivity.
Qed.

Lemma shards_of_writer_witness :
  let s := {| key := "a"; img_field := "jpeg"; img_payload := [x00];
              json := {| prompt := "one"; width := 2; height := 2 |} |} in
  let out := run_writer (shard_pattern "out/train" "coco-train") 10000
               (repeat s 25000) in
  map shard_len out = [10000; 10000; 5000]
  /\ map shard_name out = [ "out/train/coco-train-000000.tar";
                            "out/train/coco-train-000001.tar";
                            "out/train/coco-train-000002.tar" ].
Proof.
  intros s out.
  assert (HN : 0 < 10000) by (apply Nat.ltb_lt; vm_compute; reflexivity).
  destruct (@shards_of_writer "out/train" "coco-train" 10000
              (repeat s 25000) HN) as (_ & _ & _ & H).
  exact (H eq_refl (repeat_length s 25000)).
Defined.

(* ================================================================== *)
(** ** Properties of the writing pass *)

Section WritingPass.

Variable pil : PIL.

Lemma step2_skip (name : string) (data : entry) (rest : image_data_t)
    (sink : ShardWriter) (total : nat) :
  snd (make_sample pil name data) = None ->
  step2 pil ((name, data) :: rest) sink total
  = (fst (fst (step2 pil rest sink total)),
     snd (fst (step2 pil rest sink total)),
     fst (make_sample pil name data) ++ snd (step2 pil rest sink total)).
Proof.
  intros H. simpl.
  destruct (make_sample pil name data) as [out [s|]]; [discriminate|].
  now destruct (step2 pil rest sink total) as [[sink' total'] out'].
Qed.

Lemma step2_spec (items : image_data_t) :
  forall sink total,
    step2 pil items sink total
    = (write_all sink (samples_of pil items),
       total + List.length (samples_of pil items),
       step2_output pil items).
Proof.
  induction items as [|[name data] items IH]; intros sink total; simpl.
  - now rewrite Nat.add_0_r.
  - destruct (make_sample pil name data) as [out [s|]]; simpl;
      rewrite IH; simpl.
    + f_equal. f_equal. lia.
    + reflexivity.
Qed.

Lemma make_sample_rejected (name : string) (data : entry) :
  snd (get_image_bytes_validate_and_dims pil (image_bytes data) name) = None ->
  snd (make_sample pil name data) = None.
Proof.
  intros H. unfold make_sample.
  destruct (is_None (image_bytes data) || py_not (prompt_text data)); auto.
  destruct (get_image_bytes_validate_and_dims pil (image_bytes data) name)
    as [out [[[[b fmt] w] h]|]]; [discriminate | reflexivity].
Qed.

End WritingPass.

Lemma convert_spec (pil : PIL) (files : list parquet_file)
    (output_dir output_prefix : string) (N : nat) :
  let o := convert_parquet_to_webdataset_with_dims pil files output_dir
             output_prefix N in
  let validated := samples_of pil (fst (step1 [] files)) in
  shards o = run_writer (shard_pattern output_dir output_prefix) N validated
  /\ written o = validated
  /\ total_images_processed o = List.length validated
  /\ made_dirs o = [output_dir].
Proof.
  unfold written, convert_parquet_to_webdataset_with_dims.
  destruct (step1 [] files) as [d out1]. rewrite step2_spec. simpl.
  split; [reflexivity|]. split; [|split; reflexivity].
  apply run_writer_samples.
Qed.

(** C6: when a call made while validating the payload of an entry
    raises, the validator returns the rejection, and the loop of step 2
    goes on with the next entry with the sink and the counter it had:
    nothing is written for the entry and the count stays. *)
Theorem rejected_entry_not_written (pil : PIL) (name : string) (data : entry)
    (rest : image_data_t) (sink : ShardWriter) (total : nat) :
  raises_in_validation pil (image_bytes data) ->
  snd (get_image_bytes_validate_and_dims pil (image_bytes data) name) = None
  /\ snd (make_sample pil name data) = None
  /\ step2 pil ((name, data) :: rest) sink total
     = (fst (fst (step2 pil rest sink total)),
        snd (fst (step2 pil rest sink total)),
        fst (make_sample pil name data) ++ snd (step2 pil rest sink total)).
Proof.
  intros H.
  assert (Hv : snd (get_image_bytes_validate_and_dims pil (image_bytes data)
                      name) = None) by now apply raises_rejected.
  assert (Hm : snd (make_sample pil name data) = None)
    by now apply make_sample_rejected.
  split; [exact Hv|]. split; [exact Hm|]. now apply step2_skip.
Qed.

(** C10: an entry whose prompt is the empty string is skipped with the
    warning before its image is looked at, and the loop goes on with the
    next entry with the sink and the counter it had. *)
Theorem empty_prompt_entry_skipped (pil : PIL) (name : string) (data : entry)
    (rest : image_data_t) (sink : ShardWriter) (total : nat) :
  prompt_text data = Some "" ->
  make_sample pil name data = ([WarnMissing name], None)
  /\ step2 pil ((name, data) :: rest) sink total
     = (fst (fst (step2 pil rest sink total)),
        snd (fst (step2 pil rest sink total)),
        WarnMissing name :: snd (step2 pil rest sink total)).
Proof.
  intros H.
  assert (Hm : make_sample pil name data = ([WarnMissing name], None)).
  { unfold make_sample. rewrite H. simpl. now rewrite orb_true_r. }
  split; [exact Hm|].
  rewrite step2_skip; rewrite Hm; reflexivity.
Qed.

Lemma rejected_entry_not_written_witness :
  let bad := {| prompt_text := Some "a blurred photo";
                image_bytes := PyBytes [x09] |} in
  let good := {| prompt_text := Some "a cat";
                 image_bytes := PyBytes [x00; x00; x04; x03] |} in
  let sink := ShardWriter_new (shard_pattern "out" "coco-train") 2 in
  snd (get_image_bytes_validate_and_dims Stub.pil (image_bytes bad) "bad.jpg")
  = None
  /\ snd (make_sample Stub.pil "bad.jpg" bad) = None
  /\ step2 Stub.pil [("bad.jpg", bad); ("cat.jpg", good)] sink 0
     = (fst (fst (step2 Stub.pil [("cat.jpg", good)] sink 0)),
        snd (fst (step2 Stub.pil [("cat.jpg", good)] sink 0)),
        fst (make_sample Stub.pil "bad.jpg" bad)
        ++ snd (step2 Stub.pil [("cat.jpg", good)] sink 0)).
Proof.
  intros bad good sink.
  apply (@rejected_entry_not_written Stub.pil "bad.jpg" bad
           [("cat.jpg", good)] sink 0).
  apply (@raises_decode Stub.pil [x09] UnidentifiedImageError).
  reflexivity.
Defined.

Lemma empty_prompt_entry_skipped_witness :
  let data := {| prompt_text := Some "";
                 image_bytes := PyBytes [x00; x00; x04; x03] |} in
  let good := {| prompt_text := Some "a cat";
                 image_bytes := PyBytes [x00; x00; x04; x03] |} in
  let sink := ShardWriter_new (shard_pattern "out" "coco-train") 2 in
  make_sample Stub.pil "quiet.jpg" data = ([WarnMissing "quiet.jpg"], None)
  /\ step2 Stub.pil [("quiet.jpg", data); ("cat.jpg", good)] sink 0
     = (fst (fst (step2 Stub.pil [("cat.jpg", good)] sink 0)),
        snd (fst (step2 Stub.pil [("cat.jpg", good)] sink 0)),
        WarnMissing "quiet.jpg"
          :: snd (step2 Stub.pil [("cat.jpg", good)] sink 0)).
Proof.
  intros data good sink.
  exact (@empty_prompt_entry_skipped Stub.pil "quiet.jpg" data
           [("cat.jpg", good)] sink 0 eq_refl).
Defined.

(** C8: when the pattern matches no file the script prints the error and
    returns: no directory is made, no shard is opened, nothing is
    counted. *)
Theorem no_input_files_no_output (pil : PIL) (input_dir output_dir : string)
    (split : split_t) (samples_per_shard : nat) :
  main pil input_dir output_dir split samples_per_shard []
  = {| stdout := [ErrNoFiles (os_path_join input_dir
                                (split_name split ++ "-*.parquet")%string)];
       made_dirs := [];
       shards := [];
       total_images_processed := 0 |}.
Proof.
  reflexivity.
Qed.

Lemma insert_sorted_nonempty (pf : parquet_file) (l : list parquet_file) :
  insert_sorted pf l <> [].
Proof.
  destruct l as [|x l]; simpl; [discriminate|].
  destruct (String.leb (path pf) (path x)); discriminate.
Qed.

(** With at least one matching file the other branch is taken: the
    output directory is made and shard 0 is opened. *)
Lemma some_input_files_output (pil : PIL) (input_dir output_dir : string)
    (split : split_t) (N : nat) (glob_result : list parquet_file) :
  glob_result <> [] ->
  made_dirs (main pil input_dir output_dir split N glob_result)
  = [os_path_join output_dir (split_name split)]
  /\ shards (main pil input_dir output_dir split N glob_result) <> [].
Proof.
  intros H. unfold main.
  destruct glob_result as [|pf rest]; [congruence|]. simpl sorted.
  pose proof (insert_sorted_nonempty pf (sorted rest)) as Hne.
  destruct (insert_sorted pf (sorted rest)) as [|x l] eqn:E; [congruence|].
  pose proof (convert_spec pil (x :: l)
                (os_path_join output_dir (split_name split))
                ("coco-" ++ split_name split)%string N) as (Hs & _ & _ & Hd).
  simpl made_dirs. simpl shards. split; [exact Hd|].
  simpl in Hs. rewrite Hs. unfold run_writer, sink_close, finish.
  match goal with
  | |- context [tarstream ?w] =>
      destruct (tarstream w) as [f|] eqn:T; simpl
  end.
  - intros Hnil. apply app_eq_nil in Hnil. destruct Hnil. discriminate.
  - exfalso. revert T.
    set (l' := samples_of pil _). clearbody l'.
    assert (forall w, tarstream w <> None ->
                      tarstream (write_all w l') <> None) as Hopen.
    { unfold write_all. induction l' as [|s l' IH]; simpl; auto.
      intros w Hw. apply IH. unfold sink_write.
      destruct (tarstream w) eqn:Tw; [|congruence].
      destruct (maxcount w <=? count w)%nat; simpl; try rewrite Tw;
        discriminate. }
    apply Hopen. simpl. discriminate.
Qed.

(* ================================================================== *)
(** ** Keys of the written samples *)

Lemma keys_inv_store (names : list string) (d : image_data_t)
    (k : string) (e : entry) :
  keys_inv names d -> In k names -> keys_inv names (store d k e).
Proof.
  intros [Hn Hi] Hk. split.
  - now apply NoDup_keys_store.
  - rewrite keys_store.
    destruct (in_dec string_dec k (map fst d)); auto.
    apply incl_app; auto. intros x [<-|[]]. exact Hk.
Qed.

Lemma process_row_keys (names : list string) (d : image_data_t) (r : row) :
  keys_inv names d -> In (filename r) names ->
  keys_inv names (fst (process_row d r)).
Proof.
  intros H Hk. unfold process_row, getitem.
  destruct (extract_image_bytes (image r)) as [p|]; auto.
  destruct (lookup d (filename r)) as [e|].
  - destruct (is_None (image_bytes e)); simpl; auto using keys_inv_store.
    destruct (py_len (caption r)), (py_len (prompt_text e)); simpl; auto.
    destruct (n0 <? n)%nat; simpl; auto using keys_inv_store.
  - simpl. auto using keys_inv_store.
Qed.

Lemma process_rows_keys (names : list string) (rows : list row) :
  forall d,
    keys_inv names d -> incl (map filename rows) names ->
    keys_inv names (fst (process_rows d rows)).
Proof.
  induction rows as [|r rows IH]; intros d H Hi; simpl; auto.
  assert (Hr : In (filename r) names) by (apply Hi; simpl; auto).
  pose proof (process_row_keys r H Hr) as H1.
  destruct (process_row d r) as [d1 [out [ex|u]]]; simpl in *; auto.
  assert (Hi' : incl (map filename rows) names)
    by (intros x Hx; apply Hi; simpl; auto).
  specialize (IH d1 H1 Hi').
  now destruct (process_rows d1 rows) as [d2 m].
Qed.

Lemma step1_keys (files : list parquet_file) :
  forall names d,
    keys_inv names d -> incl (map filename (rows_of files)) names ->
    keys_inv names (fst (step1 d files)).
Proof.
  induction files as [|pf files IH]; intros names d H Hi; simpl; auto.
  simpl in Hi. rewrite map_app in Hi.
  apply incl_app_inv in Hi. destruct Hi as [Hi1 Hi2].
  assert (H1 : keys_inv names (fst (process_file d pf))).
  { unfold process_file. destruct (read_table pf) as [ex|rows]; auto.
    pose proof (process_rows_keys rows H Hi1) as Hr.
    now destruct (process_rows d rows) as [d1 [out [ex|u]]]. }
  destruct (process_file d pf) as [d1 o1]. simpl in H1.
  specialize (IH names d1 H1 Hi2).
  now destruct (step1 d1 files) as [d2 o2].
Qed.

Section WrittenKeys.

Variable pil : PIL.

Lemma make_sample_fields (name : string) (data : entry) (s : sample) :
  snd (make_sample pil name data) = Some s ->
  key s = fst (splitext name)
  /\ In (img_field s) supported_formats
  /\ prompt_text data = Some (prompt (json s))
  /\ prompt (json s) <> "".
Proof.
  unfold make_sample.
  destruct (is_None (image_bytes data)); simpl; [discriminate|].
  destruct (prompt_text data) as [t|] eqn:P; simpl; [|discriminate].
  destruct (String.eqb t "") eqn:E; [discriminate|].
  apply String.eqb_neq in E.
  destruct (get_image_bytes_validate_and_dims pil (image_bytes data) name)
    as [out [[[[b fmt] w] h]|]] eqn:V; simpl; [|discriminate].
  intros H. inversion H; subst. simpl. repeat split; auto.
  apply (@validated_format_supported pil (image_bytes data) name b fmt w h).
  now rewrite V.
Qed.

Lemma samples_of_keys (items : image_data_t) :
  map key (samples_of pil items)
  = map (fun f => fst (splitext f)) (written_names pil items).
Proof.
  unfold written_names, samples_of, passes.
  induction items as [|[name data] items IH]; simpl; auto.
  destruct (snd (make_sample pil name data)) as [s|] eqn:M; simpl; auto.
  rewrite IH. f_equal. now apply make_sample_fields in M.
Qed.

Lemma samples_of_fields (items : image_data_t) :
  Forall (fun s => In (img_field s) supported_formats
                   /\ prompt (json s) <> "") (samples_of pil items).
Proof.
  unfold samples_of.
  induction items as [|[name data] items IH]; simpl; auto.
  destruct (snd (make_sample pil name data)) as [s|] eqn:M; simpl; auto.
  constructor; auto. apply make_sample_fields in M. tauto.
Qed.

Lemma written_names_NoDup (items : image_data_t) :
  NoDup (map fst items) -> NoDup (written_names pil items).
Proof.
  unfold written_names.
  induction items as [|[name data] items IH]; simpl; intros H.
  - constructor.
  - inversion H; subst.
    destruct (passes pil (name, data)); simpl; auto.
    constructor; auto.
    intros Hin. apply in_map_iff in Hin. destruct Hin as ([n e] & <- & Hf).
    apply filter_In in Hf. destruct Hf as [Hf _].
    match goal with Hnot : ~ In _ _ |- _ => apply Hnot end.
    apply in_map_iff. exists (n, e). auto.
Qed.

Lemma written_names_incl (items : image_data_t) :
  incl (written_names pil items) (map fst items).
Proof.
  unfold written_names. apply incl_map, incl_filter.
Qed.

End WrittenKeys.

(** C4, as stated, fails: the key drops the extension, so the entries of
    [a.jpg] and [a.png] are both written under the key ["a"]. *)
Lemma same_stem_keys_counterexample :
  let o := convert_parquet_to_webdataset_with_dims Stub.pil same_stem_files
             "out/train" "coco-train" 4 in
  map key (written o) = ["a"; "a"]
  /\ map img_field (written o) = ["jpeg"; "png"]
  /\ ~ NoDup (map key (written o)).
Proof.
  assert (H : map key (written
                (convert_parquet_to_webdataset_with_dims Stub.pil
                   same_stem_files "out/train" "coco-train" 4))
              = ["a"; "a"]) by (vm_compute; reflexivity).
  split; [exact H|]. split; [vm_compute; reflexivity|].
  rewrite H. intros Hn. inversion Hn; subst. simpl in *. tauto.
Qed.

(** C4, amended: the written samples come from pairwise distinct
    filenames of the input rows, one sample per filename; the key of each
    is its filename without the extension, the payload field is named by
    one of the three format tags, and the metadata holds a non-empty
    prompt with the integer width and height; the keys are pairwise
    distinct whenever no two of these filenames differ in the extension
    only; the count reported is the number of samples written. *)
Theorem written_keys_from_filenames (pil : PIL) (files : list parquet_file)
    (output_dir output_prefix : string) (N : nat) :
  let o := convert_parquet_to_webdataset_with_dims pil files output_dir
             output_prefix N in
  exists names,
    NoDup names
    /\ incl names (map filename (rows_of files))
    /\ map key (written o) = map (fun f => fst (splitext f)) names
    /\ Forall (fun s => In (img_field s) supported_formats
                        /\ prompt (json s) <> "") (written o)
    /\ total_images_processed o = List.length (written o)
    /\ ((forall f g, In f names -> In g names ->
                     fst (splitext f) = fst (splitext g) -> f = g) ->
        NoDup (map key (written o))).
Proof.
  intros o.
  destruct (convert_spec pil files output_dir output_prefix N)
    as (_ & Hw & Ht & _).
  fold o in Hw, Ht. rewrite Ht, Hw.
  set (d := fst (step1 [] files)).
  assert (Hk : keys_inv (map filename (rows_of files)) d).
  { apply step1_keys; [|apply incl_refl].
    split; [constructor | intros x []]. }
  destruct Hk as [Hnd Hincl].
  exists (written_names pil d).
  assert (Hn : NoDup (written_names pil d)) by now apply written_names_NoDup.
  split; [exact Hn|].
  split; [eapply incl_tran; [apply written_names_incl | exact Hincl]|].
  split; [apply samples_of_keys|].
  split; [apply samples_of_fields|].
  split; [reflexivity|].
  intros Hinj. rewrite samples_of_keys.
  apply NoDup_map_NoDup_ForallPairs; [|exact Hn].
  intros f g Hf Hg. now apply Hinj.
Qed.

(* ================================================================== *)
(** ** The validator, case by case *)

Section ValidatorCases.

Variable pil : PIL.

(** What the validator returns, without the printing: the rejection when
    a call raises, the re-encoded bytes with the tag ["jpeg"] when line 34
    asks for the conversion, and the input bytes with the chosen tag
    otherwise; the dimensions are those of the decoded image. *)
Lemma validator_cases (x : pyval) (name : string) :
  snd (get_image_bytes_validate_and_dims pil x name)
  = match BytesIO x with
    | inl _ => None
    | inr b =>
        match Image_open pil b with
        | inl _ => None
        | inr img =>
            match verify pil img with
            | inl _ => None
            | inr _ =>
                if needs_conversion pil img then
                  match convert_RGB pil img with
                  | inl _ => None
                  | inr img' =>
                      match save_JPEG pil img' with
                      | inl _ => None
                      | inr b' =>
                          Some (b', "jpeg", fst (size pil img),
                                snd (size pil img))
                      end
                  end
                else Some (b, chosen_format pil img, fst (size pil img),
                           snd (size pil img))
            end
        end
    end.
Proof.
  unfold get_image_bytes_validate_and_dims, validate_body,
    needs_conversion, chosen_format.
  destruct (BytesIO x) as [e|b]; simpl; [now destruct e|].
  destruct (Image_open pil b) as [e|img]; simpl; [now destruct e|].
  destruct (verify pil img) as [e|[]]; simpl; [now destruct e|].
  destruct (size pil img) as [w h].
  destruct (str_in (detected_format pil img) supported_formats); simpl.
  - destruct (String.eqb (detected_format pil img) "jpeg") eqn:J; simpl.
    + destruct (negb (String.eqb (mode pil img) "RGB")); simpl.
      * destruct (convert_RGB pil img) as [e|img']; simpl; [now destruct e|].
        destruct (save_JPEG pil img') as [e|b']; simpl; [now destruct e|].
        apply String.eqb_eq in J. now rewrite J.
      * now destruct (String.eqb (detected_format pil img) "png"
                      && String.eqb (mode pil img) "RGBA").
    + now destruct (String.eqb (detected_format pil img) "png"
                    && String.eqb (mode pil img) "RGBA").
  - destruct (negb (String.eqb (mode pil img) "RGB")); simpl.
    + destruct (convert_RGB pil img) as [e|img']; simpl; [now destruct e|].
      now destruct (save_JPEG pil img') as [e|b']; simpl; [destruct e|].
    + reflexivity.
Qed.

End ValidatorCases.

(** X1: an accepted payload is bytes that decoded and passed the integrity
    check; the tag is the chosen format, the dimensions are those of the
    decoded image, and the bytes returned are the input bytes unless the
    tag is ["jpeg"] and the mode is not RGB, in which case they are the
    JPEG encoding of the converted image.  In particular a payload tagged
    ["png"] or ["webp"] is never re-encoded. *)
Theorem validated_bytes_and_tag (pil : PIL) (x : pyval) (name : string)
    (b' : bytes) (fmt : string) (w h : Z) :
  snd (get_image_bytes_validate_and_dims pil x name) = Some (b', fmt, w, h) ->
  exists b img,
    x = PyBytes b
    /\ Image_open pil b = inr img
    /\ verify pil img = inr tt
    /\ fmt = chosen_format pil img
    /\ (w, h) = size pil img
    /\ (if needs_conversion pil img
        then exists img', convert_RGB pil img = inr img'
                          /\ save_JPEG pil img' = inr b'
        else b' = b)
    /\ (fmt <> "jpeg" -> b' = b).
Proof.
  rewrite validator_cases.
  destruct x as [|b|s|z|items]; simpl; try discriminate.
  destruct (Image_open pil b) as [e|img] eqn:Ho; [discriminate|].
  destruct (verify pil img) as [e|[]] eqn:Hv; [discriminate|].
  destruct (needs_conversion pil img) eqn:Hn.
  - destruct (convert_RGB pil img) as [e|img'] eqn:Hc; [discriminate|].
    destruct (save_JPEG pil img') as [e|b''] eqn:Hs; [discriminate|].
    assert (Hj : chosen_format pil img = "jpeg").
    { unfold needs_conversion in Hn. apply andb_true_iff in Hn.
      destruct Hn as [Hj _]. now apply String.eqb_eq in Hj. }
    intros H. injection H as Hb Hf Hw Hh. exists b, img.
    rewrite <- Hb, <- Hf, <- Hw, <- Hh, Hj.
    repeat split; eauto.
    + now destruct (size pil img).
    + rewrite Hn. eauto.
    + intros Hne. now elim Hne.
  - intros H. injection H as Hb Hf Hw Hh. exists b, img.
    rewrite <- Hb, <- Hf, <- Hw, <- Hh.
    repeat split; auto.
    + now destruct (size pil img).
    + now rewrite Hn.
Qed.

Lemma validated_bytes_and_tag_witness :
  exists b img,
    PyBytes [x02; x01; x08; x06] = PyBytes b
    /\ Image_open Stub.pil b = inr img
    /\ verify Stub.pil img = inr tt
    /\ "webp" = chosen_format Stub.pil img
    /\ (8%Z, 6%Z) = size Stub.pil img
    /\ (if needs_conversion Stub.pil img
        then exists img', convert_RGB Stub.pil img = inr img'
                          /\ save_JPEG Stub.pil img' = inr [x02; x01; x08; x06]
        else [x02; x01; x08; x06] = b)
    /\ ("webp" <> "jpeg" -> [x02; x01; x08; x06] = b).
Proof.
  exact (@validated_bytes_and_tag Stub.pil (PyBytes [x02; x01; x08; x06])
           "a.webp" [x02; x01; x08; x06] "webp" 8%Z 6%Z eq_refl).
Defined.

(** X2: the validator rejects a payload exactly when one of the calls it
    makes on it raises; a payload on which none raises is never
    rejected. *)
Theorem rejected_iff_raises (pil : PIL) (x : pyval) (name : string) :
  snd (get_image_bytes_validate_and_dims pil x name) = None
  <-> raises_in_validation pil x.
Proof.
  split; [|apply raises_rejected].
  rewrite validator_cases.
  destruct (BytesIO x) as [e|b] eqn:Hb.
  - intros _. eapply raises_stream; eauto.
  - assert (x = PyBytes b) as ->.
    { destruct x; simpl in Hb; congruence. }
    destruct (Image_open pil b) as [e|img] eqn:Ho.
    { intros _. eapply raises_decode; eauto. }
    destruct (verify pil img) as [e|[]] eqn:Hv.
    { intros _. eapply raises_verify; eauto. }
    destruct (needs_conversion pil img) eqn:Hn; [|discriminate].
    destruct (convert_RGB pil img) as [e|img'] eqn:Hc.
    { intros _. eapply raises_convert; eauto. }
    destruct (save_JPEG pil img') as [e|b'] eqn:Hs; [|discriminate].
    intros _. eapply raises_encode; eauto.
Qed.

(** X3: a JPEG whose mode is not RGB (grey, CMYK, ...) that decodes and
    converts is announced, converted to RGB and re-encoded: the bytes
    returned are those of the encoder, the tag is ["jpeg"], and the
    dimensions are those of the original image. *)
Theorem jpeg_non_rgb_reencoded (pil : PIL) (b b' : bytes) (name : string)
    (img img' : Image pil) :
  Image_open pil b = inr img ->
  verify pil img = inr tt ->
  format pil img = Some "JPEG" ->
  mode pil img <> "RGB" ->
  convert_RGB pil img = inr img' ->
  save_JPEG pil img' = inr b' ->
  get_image_bytes_validate_and_dims pil (PyBytes b) name
  = ([InfoConverting name (mode pil img)],
     Some (b', "jpeg", fst (size pil img), snd (size pil img))).
Proof.
  intros Ho Hv Hf Hm Hc He.
  unfold get_image_bytes_validate_and_dims, validate_body, detected_format.
  simpl. rewrite Ho. simpl. rewrite Hv. simpl.
  destruct (size pil img) as [w h]. rewrite Hf. simpl.
  apply String.eqb_neq in Hm. rewrite Hm. simpl. rewrite Hc. simpl.
  rewrite He. reflexivity.
Qed.

Lemma jpeg_non_rgb_reencoded_witness :
  get_image_bytes_validate_and_dims Stub.pil
    (PyBytes [x00; x02; x08; x06; x2a]) "grey.jpg"
  = ([InfoConverting "grey.jpg" "L"],
     Some ([x00; x00; x08; x06], "jpeg", 8%Z, 6%Z)).
Proof.
  refine (@jpeg_non_rgb_reencoded Stub.pil [x00; x02; x08; x06; x2a]
            [x00; x00; x08; x06] "grey.jpg"
            {| Stub.i_format := Some "JPEG"; Stub.i_mode := "L";
               Stub.i_width := x08; Stub.i_height := x06;
               Stub.i_rest := [x2a] |}
            {| Stub.i_format := None; Stub.i_mode := "RGB";
               Stub.i_width := x08; Stub.i_height := x06;
               Stub.i_rest := [x2a] |}
            eq_refl eq_refl eq_refl _ eq_refl eq_refl).
  discriminate.
Defined.

(** X4: an image whose format attribute is missing ([None] or empty) is
    taken for a JPEG without any warning; in mode RGB its bytes come back
    as they went in under the tag ["jpeg"]. *)
Theorem missing_format_defaults_to_jpeg (pil : PIL) (b : bytes)
    (name : string) (img : Image pil) :
  Image_open pil b = inr img ->
  verify pil img = inr tt ->
  format pil img = None \/ format pil img = Some "" ->
  mode pil img = "RGB" ->
  get_image_bytes_validate_and_dims pil (PyBytes b) name
  = ([], Some (b, "jpeg", fst (size pil img), snd (size pil img))).
Proof.
  intros Ho Hv Hf Hm.
  unfold get_image_bytes_validate_and_dims, validate_body, detected_format.
  simpl. rewrite Ho. simpl. rewrite Hv. simpl.
  destruct (size pil img) as [w h].
  destruct Hf as [-> | ->]; simpl; rewrite Hm; reflexivity.
Qed.

Lemma missing_format_defaults_to_jpeg_witness :
  get_image_bytes_validate_and_dims Stub.pil
    (PyBytes [x04; x00; x08; x06]) "raw.bin"
  = ([], Some ([x04; x00; x08; x06], "jpeg", 8%Z, 6%Z)).
Proof.
  exact (@missing_format_defaults_to_jpeg Stub.pil [x04; x00; x08; x06]
           "raw.bin"
           {| Stub.i_format := None; Stub.i_mode := "RGB";
              Stub.i_width := x08; Stub.i_height := x06;
              Stub.i_rest := [] |}
           eq_refl eq_refl (or_introl eq_refl) eq_refl).
Defined.

(* ================================================================== *)
(** ** What is printed for an entry *)

Ltac notices :=
  unfold notice;
  repeat (apply Forall_cons;
          [ first [ left; eexists; reflexivity
                  | right; eexists; reflexivity ] | ]);
  apply Forall_nil.

Ltac report_done :=
  split; [reflexivity|];
  split;
  [ first [ left; reflexivity
          | right; left; reflexivity
          | right; right; eexists; reflexivity ]
  | solve [notices] ].

Ltac report :=
  simpl; unfold drop_report, notice;
  first [ eexists [], _; report_done
        | eexists [_], _; report_done
        | eexists [_; _], _; report_done ].

Lemma validator_events (pil : PIL) (x : pyval) (name : string) :
  match snd (get_image_bytes_validate_and_dims pil x name) with
  | None =>
      exists pre ev,
        fst (get_image_bytes_validate_and_dims pil x name) = pre ++ [ev]
        /\ drop_report name ev
        /\ Forall (notice name) pre
  | Some _ =>
      Forall (notice name) (fst (get_image_bytes_validate_and_dims pil x name))
  end.
Proof.
  unfold get_image_bytes_validate_and_dims, validate_body.
  destruct (BytesIO x) as [e|b]; simpl; [destruct e; report|].
  destruct (Image_open pil b) as [e|img]; simpl; [destruct e; report|].
  destruct (verify pil img) as [e|[]]; simpl; [destruct e; report|].
  destruct (size pil img) as [w h].
  destruct (str_in (detected_format pil img) supported_formats); simpl.
  - destruct (String.eqb (detected_format pil img) "jpeg"
              && negb (String.eqb (mode pil img) "RGB")); simpl.
    + destruct (convert_RGB pil img) as [e|img']; simpl;
        [destruct e; report|].
      destruct (save_JPEG pil img') as [e|b']; simpl;
        [destruct e; report|].
      notices.
    + destruct (String.eqb (detected_format pil img) "png"
                && String.eqb (mode pil img) "RGBA"); simpl; notices.
  - destruct (negb (String.eqb (mode pil img) "RGB")); simpl.
    + destruct (convert_RGB pil img) as [e|img']; simpl;
        [destruct e; report|].
      destruct (save_JPEG pil img') as [e|b']; simpl;
        [destruct e; report|].
      notices.
    + notices.
Qed.

(** X5: an entry that is not written is always reported: the last line
    printed for it is the missing-data warning or one of the validator's
    two error lines, and it is the only such line; whatever else is
    printed for an entry, written or not, is the format warning or the
    conversion notice. *)
Theorem dropped_entry_reported (pil : PIL) (name : string) (data : entry) :
  match snd (make_sample pil name data) with
  | None =>
      exists pre ev,
        fst (make_sample pil name data) = pre ++ [ev]
        /\ drop_report name ev
        /\ Forall (notice name) pre
  | Some _ => Forall (notice name) (fst (make_sample pil name data))
  end.
Proof.
  unfold make_sample.
  destruct (is_None (image_bytes data) || py_not (prompt_text data)).
  - simpl. exists [], (WarnMissing name).
    split; [reflexivity|]. split; [now left | constructor].
  - pose proof (validator_events pil (image_bytes data) name) as H.
    destruct (get_image_bytes_validate_and_dims pil (image_bytes data) name)
      as [out [[[[b fmt] w] h]|]]; simpl in *.
    + exact H.
    + destruct H as (pre & ev & Hout & Hev & Hpre).
      exists pre, ev. repeat split; auto.
Qed.

(* ================================================================== *)
(** ** More on the aggregation pass *)

Lemma extract_shape (r : row) :
  shape_ok r = match extract_image_bytes (image r) with
               | Some _ => true
               | None => false
               end.
Proof.
  unfold shape_ok.
  destruct (extract_image_bytes (image r)) as [p|] eqn:E.
  - now apply extract_Some_shape in E.
  - now apply extract_None_shape in E.
Qed.

(** Where an entry of the mapping after a row comes from: it was there
    before, or it belongs to the row's filename, holds the row's caption,
    and holds the row's payload or the bytes stored before. *)
Lemma process_row_lookup (d : image_data_t) (r : row) (f : string)
    (e' : entry) :
  lookup (fst (process_row d r)) f = Some e' ->
  lookup d f = Some e'
  \/ (f = filename r
      /\ prompt_text e' = caption r
      /\ exists p,
           extract_image_bytes (image r) = Some p
           /\ (image_bytes e' = p
               \/ exists e, lookup d f = Some e
                            /\ is_None (image_bytes e) = false
                            /\ image_bytes e' = image_bytes e)).
Proof.
  unfold process_row, getitem.
  destruct (extract_image_bytes (image r)) as [p|] eqn:E; [|now left].
  assert (Hnew : forall d0,
             lookup (store d0 (filename r)
                       {| prompt_text := caption r; image_bytes := p |}) f
             = Some e' ->
             lookup d0 f = Some e'
             \/ (f = filename r /\ prompt_text e' = caption r
                 /\ image_bytes e' = p)).
  { intros d0 H. destruct (string_dec (filename r) f) as [<-|Hne].
    - rewrite lookup_store_same in H. inversion H; subst. simpl. auto.
    - rewrite lookup_store_other in H by auto. auto. }
  destruct (lookup d (filename r)) as [e|] eqn:L.
  - destruct (is_None (image_bytes e)) eqn:N; simpl.
    + intros H. apply Hnew in H. destruct H as [H|(-> & Hp & Hb)]; eauto 8.
    + destruct (py_len (caption r)), (py_len (prompt_text e)); simpl; auto.
      destruct (n0 <? n)%nat; simpl; auto.
      intros H. destruct (string_dec (filename r) f) as [<-|Hne].
      * rewrite lookup_store_same in H. inversion H; subst. simpl.
        right. repeat split; auto. exists p. split; auto.
        right. exists e. auto.
      * rewrite lookup_store_other in H by auto. auto.
  - simpl. intros H. destruct (string_dec (filename r) f) as [<-|Hne].
    + rewrite lookup_store_same in H. inversion H; subst. simpl. eauto 8.
    + rewrite !lookup_store_other in H by auto. auto.
Qed.

Lemma process_row_from_rows (R : list row) (d : image_data_t) (r : row) :
  from_rows R d -> In r R -> from_rows R (fst (process_row d r)).
Proof.
  intros Hd Hr f e' L. apply process_row_lookup in L.
  destruct L as [L | (-> & Hc & p & E & Hb)]; [now apply Hd|].
  split.
  - exists r. repeat split; auto. now rewrite extract_shape, E.
  - destruct Hb as [Hb | (e & L & _ & Hb)].
    + exists r. repeat split; auto. now rewrite Hb.
    + rewrite Hb. now apply (Hd (filename r) e).
Qed.

Lemma process_rows_from_rows (R : list row) (rows : list row) :
  forall d,
    from_rows R d -> incl rows R -> from_rows R (fst (process_rows d rows)).
Proof.
  induction rows as [|r rows IH]; intros d Hd Hi; simpl; auto.
  assert (Hr : In r R) by (apply Hi; simpl; auto).
  pose proof (@process_row_from_rows R d r Hd Hr) as H1.
  destruct (process_row d r) as [d1 [out [ex|u]]]; simpl in *; auto.
  assert (Hi' : incl rows R) by (intros x Hx; apply Hi; simpl; auto).
  specialize (IH d1 H1 Hi').
  now destruct (process_rows d1 rows) as [d2 m].
Qed.

Lemma step1_from_rows (files : list parquet_file) :
  forall R d,
    from_rows R d -> incl (rows_of files) R ->
    from_rows R (fst (step1 d files)).
Proof.
  induction files as [|pf files IH]; intros R d Hd Hi; simpl; auto.
  simpl in Hi. apply incl_app_inv in Hi. destruct Hi as [Hi1 Hi2].
  assert (H1 : from_rows R (fst (process_file d pf))).
  { unfold process_file. destruct (read_table pf) as [ex|rows]; auto.
    pose proof (@process_rows_from_rows R rows d Hd Hi1) as Hr.
    now destruct (process_rows d rows) as [d1 [out [ex|u]]]. }
  destruct (process_file d pf) as [d1 o1]. simpl in H1.
  specialize (IH R d1 H1 Hi2).
  now destruct (step1 d1 files) as [d2 o2].
Qed.

(** X6: whatever the rows hold, every entry of the mapping after step 1
    holds a caption of a row with its own filename whose image cell had an
    accepted shape, and a payload extracted from a row with its own
    filename: captions and images are never mixed between filenames, and
    the initial empty prompt of a fresh entry never survives. *)
Theorem entries_come_from_rows (files : list parquet_file) :
  from_rows (rows_of files) (fst (step1 [] files)).
Proof.
  apply step1_from_rows; [|apply incl_refl].
  intros f e L. discriminate.
Qed.

(** A stored payload and the length of the prompt beside it through one
    row. *)
Lemma process_row_prompt_grows (d : image_data_t) (r : row) (f : string)
    (e : entry) (s : string) :
  lookup d f = Some e ->
  is_None (image_bytes e) = false ->
  prompt_text e = Some s ->
  exists e' s',
    lookup (fst (process_row d r)) f = Some e'
    /\ image_bytes e' = image_bytes e
    /\ prompt_text e' = Some s'
    /\ String.length s <= String.length s'.
Proof.
  intros L N P. unfold process_row, getitem.
  destruct (extract_image_bytes (image r)) as [p|]; [|exists e, s; auto].
  destruct (string_dec f (filename r)) as [->|Hne].
  - rewrite L, N, P.
    destruct (caption r) as [c|]; simpl; [|exists e, s; auto].
    destruct (String.length s <? String.length c)%nat eqn:E; simpl.
    + apply Nat.ltb_lt in E. rewrite lookup_store_same.
      eexists _, c. simpl. repeat split; auto. lia.
    + exists e, s. auto.
  - assert (Hst : forall d0 e0, lookup d0 f = Some e ->
                                lookup (store d0 (filename r) e0) f = Some e).
    { intros. rewrite lookup_store_other; congruence. }
    destruct (lookup d (filename r)) as [e1|] eqn:L1.
    + destruct (is_None (image_bytes e1)); simpl; [exists e, s; auto|].
      destruct (py_len (caption r)), (py_len (prompt_text e1)); simpl;
        try (exists e, s; now auto).
      destruct (n0 <? n)%nat; simpl; exists e, s; auto.
    + simpl. exists e, s. auto.
Qed.

Lemma process_row_holds_longer (d : image_data_t) (r : row) (f : string)
    (b : pyval) (n : nat) :
  is_None b = false ->
  holds_longer f b n d -> holds_longer f b n (fst (process_row d r)).
Proof.
  intros N (e & s & L & <- & P & Hn).
  destruct (@process_row_prompt_grows d r f e s L N P)
    as (e' & s' & L' & Hb & P' & Hs).
  exists e', s'. repeat split; auto. lia.
Qed.

Lemma process_rows_holds_longer (rows : list row) (f : string) (b : pyval)
    (n : nat) :
  is_None b = false ->
  forall d,
    holds_longer f b n d -> holds_longer f b n (fst (process_rows d rows)).
Proof.
  intros N. induction rows as [|r rows IH]; intros d H; simpl; auto.
  pose proof (@process_row_holds_longer d r f b n N H) as H1.
  destruct (process_row d r) as [d1 [out [ex|u]]]; simpl in *; auto.
  specialize (IH d1 H1).
  now destruct (process_rows d1 rows) as [d2 m].
Qed.

Lemma step1_holds_longer (files : list parquet_file) (f : string) (b : pyval)
    (n : nat) :
  is_None b = false ->
  forall d,
    holds_longer f b n d -> holds_longer f b n (fst (step1 d files)).
Proof.
  intros N. induction files as [|pf files IH]; intros d H; simpl; auto.
  assert (H1 : holds_longer f b n (fst (process_file d pf))).
  { unfold process_file. destruct (read_table pf) as [ex|rows]; auto.
    pose proof (@process_rows_holds_longer rows f b n N d H) as Hr.
    now destruct (process_rows d rows) as [d1 [out [ex|u]]]. }
  destruct (process_file d pf) as [d1 o1]. simpl in H1.
  specialize (IH d1 H1).
  now destruct (step1 d1 files) as [d2 o2].
Qed.

(** X7: once a filename has stored bytes and a prompt, the prompt kept for
    it never gets shorter, and the bytes stay, through any further rows
    and files, whatever those hold (null captions, malformed cells,
    unreadable files included). *)
Theorem prompt_never_shortens (d : image_data_t) (rows : list row)
    (files : list parquet_file) (f : string) (e : entry) (s : string) :
  lookup d f = Some e ->
  is_None (image_bytes e) = false ->
  prompt_text e = Some s ->
  holds_longer f (image_bytes e) (String.length s)
    (fst (step1 (fst (process_rows d rows)) files)).
Proof.
  intros L N P.
  apply step1_holds_longer; auto.
  apply process_rows_holds_longer; auto.
  exists e, s. auto.
Qed.

Lemma prompt_never_shortens_witness :
  holds_longer "a.jpg" (PyBytes [x09]) 4
    (fst (step1
            (fst (process_rows
                    [("a.jpg", {| prompt_text := Some "kept";
                                  image_bytes := PyBytes [x09] |})]
                    rows_with_skipped))
            sample_files)).
Proof.
  exact (@prompt_never_shortens
           [("a.jpg", {| prompt_text := Some "kept";
                         image_bytes := PyBytes [x09] |})]
           rows_with_skipped sample_files "a.jpg"
           {| prompt_text := Some "kept"; image_bytes := PyBytes [x09] |}
           "kept" eq_refl eq_refl eq_refl).
Defined.

Lemma lookup_None_keys (d : image_data_t) (k : string) :
  lookup d k = None <-> ~ In k (map fst d).
Proof.
  induction d as [|[k' e'] d IH]; simpl.
  - tauto.
  - destruct (String.eqb k' k) eqn:E.
    + apply String.eqb_eq in E. split; [discriminate | tauto].
    + apply String.eqb_neq in E. tauto.
Qed.

(** A row adds its filename to the keys when it is not skipped and the
    filename is new, and never changes the keys otherwise. *)
Lemma process_row_keys_eq (d : image_data_t) (r : row) :
  map fst (fst (process_row d r))
  = if shape_ok r
    then if in_dec string_dec (filename r) (map fst d)
         then map fst d else map fst d ++ [filename r]
    else map fst d.
Proof.
  rewrite extract_shape. unfold process_row, getitem.
  destruct (extract_image_bytes (image r)) as [p|]; auto.
  destruct (lookup d (filename r)) as [e|] eqn:L.
  - assert (Hin : In (filename r) (map fst d)).
    { destruct (in_dec string_dec (filename r) (map fst d)) as [H|H]; auto.
      apply lookup_None_keys in H. congruence. }
    assert (Hst : forall e0, map fst (store d (filename r) e0) = map fst d).
    { intros e0. rewrite keys_store.
      now destruct (in_dec string_dec (filename r) (map fst d)). }
    destruct (in_dec string_dec (filename r) (map fst d)); [|contradiction].
    destruct (is_None (image_bytes e)); simpl; auto.
    destruct (py_len (caption r)), (py_len (prompt_text e)); simpl; auto.
    destruct (n0 <? n)%nat; simpl; auto.
  - apply lookup_None_keys in L. simpl. rewrite !keys_store.
    destruct (in_dec string_dec (filename r) (map fst d)); [contradiction|].
    destruct (in_dec string_dec (filename r) (map fst d ++ [filename r]))
      as [|H]; auto.
    exfalso. apply H. apply in_or_app. simpl. auto.
Qed.

(** A row with a caption, met by a mapping whose prompts are strings,
    does not raise and prints its warning exactly when it is skipped. *)
Lemma process_row_no_raise (d : image_data_t) (r : row) :
  has_caption r -> prompts_set d ->
  snd (process_row d r)
  = (if shape_ok r then [] else [WarnImageField (filename r)], inr tt)
  /\ prompts_set (fst (process_row d r)).
Proof.
  intros Hc Hd. rewrite extract_shape.
  destruct (extract_image_bytes (image r)) as [p|] eqn:E.
  - destruct (caption r) as [c|] eqn:C; [|now elim Hc].
    destruct (@process_row_update d r c p C Hd E) as (d' & Hrun & Hl & Ho).
    rewrite Hrun. simpl. split; auto.
    intros f e L. destruct (string_dec f (filename r)) as [->|Hne].
    + rewrite Hl in L. inversion L; subst.
      apply updated_entry_prompt; [congruence|].
      intros e0 L0. now apply Hd in L0.
    + rewrite Ho in L by auto. now apply Hd in L.
  - rewrite (process_row_skip d r E). simpl. auto.
Qed.

(** A scan that meets only rows with captions does not raise, prints the
    warnings of the skipped rows, and carries along any property that
    every row preserves. *)
Section ScanAll.

Variable Q : image_data_t -> list row -> Prop.

Hypothesis Q_step : forall d seen r,
  Q d seen -> Q (fst (process_row d r)) (seen ++ [r]).

Lemma scan_all_rows (rows : list row) :
  forall d seen,
    Forall has_caption rows -> prompts_set d -> Q d seen ->
    snd (process_rows d rows) = (skip_warnings rows, inr tt)
    /\ prompts_set (fst (process_rows d rows))
    /\ Q (fst (process_rows d rows)) (seen ++ rows).
Proof.
  induction rows as [|r rows IH]; intros d seen Hg Hd HQ; simpl.
  - rewrite app_nil_r. auto.
  - inversion Hg as [|? ? Hr Hrest]; subst.
    destruct (process_row_no_raise Hr Hd) as [Hout Hd1].
    pose proof (Q_step r HQ) as HQ1.
    destruct (process_row d r) as [d1 [out res]]. simpl in *.
    inversion Hout; subst.
    destruct (IH d1 (seen ++ [r]) Hrest Hd1 HQ1) as (Ho2 & Hd2 & HQ2).
    destruct (process_rows d1 rows) as [d2 [out2 res2]]. simpl in *.
    inversion Ho2; subst.
    rewrite <- app_assoc in HQ2. repeat split; auto.
    unfold skip_warnings. simpl. now destruct (shape_ok r).
Qed.

Lemma scan_all_files (files : list parquet_file) :
  forall d seen,
    Forall has_caption (rows_of files) -> prompts_set d -> Q d seen ->
    snd (step1 d files) = step1_report files
    /\ prompts_set (fst (step1 d files))
    /\ Q (fst (step1 d files)) (seen ++ rows_of files).
Proof.
  induction files as [|pf files IH]; intros d seen Hg Hd HQ; simpl.
  - rewrite app_nil_r. auto.
  - simpl in Hg. apply Forall_app in Hg. destruct Hg as [Hg1 Hg2].
    unfold process_file.
    destruct (read_table pf) as [ex|rows] eqn:R.
    + destruct (IH d seen Hg2 Hd HQ) as (Ho & Hd2 & HQ2).
      destruct (step1 d files) as [d2 o2]. simpl in *. subst o2. auto.
    + destruct (@scan_all_rows rows d seen Hg1 Hd HQ) as (Ho1 & Hd1 & HQ1).
      destruct (process_rows d rows) as [d1 [out1 res1]]. simpl in *.
      inversion Ho1; subst.
      destruct (IH d1 (seen ++ rows) Hg2 Hd1 HQ1) as (Ho2 & Hd2 & HQ2).
      destruct (step1 d1 files) as [d2 o2]. simpl in *. subst o2.
      rewrite <- app_assoc in HQ2. auto.
Qed.

End ScanAll.

Lemma first_seen_snoc (l : list string) (x : string) :
  first_seen (l ++ [x])
  = if in_dec string_dec x (first_seen l) then first_seen l
    else first_seen l ++ [x].
Proof.
  unfold first_seen. now rewrite fold_left_app.
Qed.

(** X8: when no caption is null, the mapping after step 1 has one entry
    per filename that occurs on a row that is not skipped, and the entries
    stand in the order in which these filenames first appear in the scan;
    step 2 visits them in that order. *)
Theorem keys_in_first_appearance_order (files : list parquet_file) :
  Forall has_caption (rows_of files) ->
  map fst (fst (step1 [] files))
  = first_seen (map filename (filter shape_ok (rows_of files))).
Proof.
  intros Hg.
  apply (@scan_all_files
           (fun d seen =>
              map fst d = first_seen (map filename (filter shape_ok seen))))
    with (seen := []) (d := []); auto.
  - intros d seen r HQ. rewrite process_row_keys_eq, filter_app, map_app.
    simpl. destruct (shape_ok r); simpl.
    + now rewrite first_seen_snoc, HQ.
    + now rewrite app_nil_r.
  - intros f e L. discriminate.
Qed.

Lemma keys_in_first_appearance_order_witness :
  map fst (fst (step1 [] sample_files)) = ["a.jpg"; "b.png"].
Proof.
  refine (@keys_in_first_appearance_order sample_files _).
  repeat constructor; unfold has_caption; simpl; discriminate.
Defined.

(** X9: when no caption is null, step 1 prints exactly one error line for
    each file that cannot be read and one warning for each row that is
    skipped, in file and row order, and nothing else. *)
Theorem step1_prints_skips_and_failures (files : list parquet_file) :
  Forall has_caption (rows_of files) ->
  snd (step1 [] files) = step1_report files.
Proof.
  intros Hg.
  apply (@scan_all_files (fun _ _ => True)) with (seen := []) (d := []);
    auto.
  intros f e L. discriminate.
Qed.

Lemma step1_prints_skips_and_failures_witness :
  snd (step1 [] sample_files)
  = [WarnImageField "a.jpg";
     ErrParquet "in/train-1.parquet" "Parquet magic bytes not found"].
Proof.
  refine (@step1_prints_skips_and_failures sample_files _).
  repeat constructor; unfold has_caption; simpl; discriminate.
Defined.

(* ================================================================== *)
(** ** From the rows to the written samples *)

Lemma In_lookup (d : image_data_t) (k : string) (e : entry) :
  NoDup (map fst d) -> In (k, e) d -> lookup d k = Some e.
Proof.
  induction d as [|[k' e'] d IH]; simpl; intros Hn Hin; [contradiction|].
  inversion Hn as [|? ? Hnot Hn']; subst.
  destruct Hin as [H|H].
  - inversion H; subst. now rewrite String.eqb_refl.
  - destruct (String.eqb k' k) eqn:E; auto.
    apply String.eqb_eq in E. subst. exfalso. apply Hnot.
    apply in_map_iff. exists (k, e). auto.
Qed.

Lemma make_sample_inv (pil : PIL) (name : string) (data : entry)
    (s : sample) :
  snd (make_sample pil name data) = Some s ->
  key s = fst (splitext name)
  /\ prompt_text data = Some (prompt (json s))
  /\ snd (get_image_bytes_validate_and_dims pil (image_bytes data) name)
     = Some (img_payload s, img_field s, width (json s), height (json s)).
Proof.
  unfold make_sample.
  destruct (is_None (image_bytes data)); simpl; [discriminate|].
  destruct (prompt_text data) as [t|]; simpl; [|discriminate].
  destruct (String.eqb t ""); [discriminate|].
  destruct (get_image_bytes_validate_and_dims pil (image_bytes data) name)
    as [out [[[[b fmt] w] h]|]]; simpl; [|discriminate].
  intros H. inversion H; subst. simpl. auto.
Qed.

Lemma samples_of_In (pil : PIL) (items : image_data_t) (s : sample) :
  In s (samples_of pil items) ->
  exists name data,
    In (name, data) items /\ snd (make_sample pil name data) = Some s.
Proof.
  unfold samples_of. intros H. apply in_flat_map in H.
  destruct H as ([name data] & Hin & Hs). simpl in Hs.
  destruct (snd (make_sample pil name data)) as [s'|] eqn:M; [|contradiction].
  destruct Hs as [<-|[]]. eauto.
Qed.

(** X10: over rows with string captions and payload-bearing image cells,
    every sample a run writes belongs to a filename of the input: its key
    is that filename without the extension, its prompt is the first
    longest caption among the rows of the filename that were not skipped,
    and its payload, format field and dimensions are what the validator
    returns for the payload of the first such row. *)
Theorem written_sample_contents (pil : PIL) (files : list parquet_file)
    (output_dir output_prefix : string) (N : nat) :
  Forall well_formed (rows_of files) ->
  Forall
    (fun s =>
       exists f,
         In f (map filename (rows_of files))
         /\ key s = fst (splitext f)
         /\ first_longest (prompt (json s))
              (accepted_captions f (rows_of files))
         /\ snd (get_image_bytes_validate_and_dims pil
                   (first_payload f (rows_of files)) f)
            = Some (img_payload s, img_field s,
                    width (json s), height (json s)))
    (written (convert_parquet_to_webdataset_with_dims pil files output_dir
                output_prefix N)).
Proof.
  intros Hg.
  destruct (convert_spec pil files output_dir output_prefix N)
    as (_ & Hw & _). simpl in Hw. rewrite Hw.
  set (d := fst (step1 [] files)).
  assert (Hk : keys_inv (map filename (rows_of files)) d).
  { apply step1_keys; [|apply incl_refl].
    split; [constructor | intros x []]. }
  destruct Hk as [Hnd Hincl].
  assert (Hc : Forall has_caption (rows_of files)).
  { eapply Forall_impl; [|exact Hg]. now intros r [H _]. }
  pose proof (caption_inv_scan files Hg) as Hcap.
  pose proof (payload_inv_scan files Hc) as [_ Hpay].
  apply Forall_forall. intros s Hs.
  apply samples_of_In in Hs. destruct Hs as (name & data & Hin & Hm).
  pose proof (@In_lookup d name data Hnd Hin) as L.
  apply make_sample_inv in Hm. destruct Hm as (Hkey & Hp & Hv).
  exists name. split.
  { apply Hincl. apply in_map_iff. exists (name, data). auto. }
  split; [exact Hkey|]. split.
  - specialize (Hcap name). fold d in Hcap. rewrite L in Hcap.
    destruct Hcap as (_ & s0 & Hs0 & Hfl). congruence.
  - specialize (Hpay name). fold d in Hpay. unfold stored_bytes in Hpay.
    rewrite L in Hpay. now rewrite <- Hpay.
Qed.

Lemma written_sample_contents_witness :
  Forall
    (fun s =>
       exists f,
         In f (map filename (rows_of sample_files))
         /\ key s = fst (splitext f)
         /\ first_longest (prompt (json s))
              (accepted_captions f (rows_of sample_files))
         /\ snd (get_image_bytes_validate_and_dims Stub.pil
                   (first_payload f (rows_of sample_files)) f)
            = Some (img_payload s, img_field s,
                    width (json s), height (json s)))
    (written (convert_parquet_to_webdataset_with_dims Stub.pil sample_files
                "out/train" "coco-train" 2)).
Proof.
  refine (@written_sample_contents Stub.pil sample_files "out/train"
            "coco-train" 2 _).
  repeat constructor; try discriminate;
    simpl; intros p H; inversion H; reflexivity.
Defined.

(* ================================================================== *)
(** ** The driver *)



Lemma insert_sorted_perm (x : parquet_file) (l : list parquet_file) :
  Permutation (insert_sorted x l) (x :: l).
Proof.
  induction l as [|y l IH]; simpl; auto.
  destruct (String.leb (path x) (path y)); auto.
  rewrite IH. apply perm_swap.
Qed.

Lemma sorted_perm (l : list parquet_file) : Permutation (sorted l) l.
Proof.
  induction l as [|x l IH]; simpl; auto.
  rewrite insert_sorted_perm. now constructor.
Qed.






Lemma run_writer_names (pat : nat -> string) (N : nat) (l : list sample) :
  0 < N ->
  map shard_name (run_writer pat N l)
  = map pat (seq 0 (List.length (run_writer pat N l)))
  /\ run_writer pat N l <> [].
Proof.
  intros HN.
  destruct (@writer_inv_write_all pat N l HN _ [] (writer_inv_new pat N))
    as [_ _ (cur & Ht & _ & _ & _ & _ & Hn) _ Hs].
  unfold run_writer, sink_close, finish.
  set (w := write_all (ShardWriter_new pat N) l) in *.
  rewrite Ht. simpl finished.
  replace (List.length (finished w ++ [cur])) with (shard w)
    by (rewrite length_app, Hs; simpl; lia).
  split; auto. intros Hnil. apply app_eq_nil in Hnil.
  destruct Hnil. discriminate.
Qed.

Lemma sorted_length (l : list parquet_file) :
  List.length (sorted l) = List.length l.
Proof.
  apply Permutation_length, sorted_perm.
Qed.

(** X12: with at least one matching file and a positive bound, the run
    announces the number of files found, makes the directory
    [<output_dir>/<split>], and leaves at least one shard there; the
    shards are named [coco-<split>-NNNNNN.tar] with the six-digit shard
    numbers 0, 1, 2, ... in order. *)
Theorem shards_named_under_split_dir (pil : PIL)
    (input_dir output_dir : string) (split : split_t) (N : nat)
    (glob_result : list parquet_file) :
  glob_result <> [] ->
  0 < N ->
  let o := main pil input_dir output_dir split N glob_result in
  hd_error (stdout o)
  = Some (InfoFound (List.length glob_result) (split_name split))
  /\ made_dirs o = [os_path_join output_dir (split_name split)]
  /\ shards o <> []
  /\ map shard_name (shards o)
     = map (fun n => os_path_join
                       (os_path_join output_dir (split_name split))
                       ("coco-" ++ split_name split ++ "-" ++ fmt_06d n
                        ++ ".tar")%string)
           (seq 0 (List.length (shards o))).
Proof.
  intros Hne HN o. subst o. unfold main.
  pose proof (sorted_length glob_result) as Hlen.
  destruct (sorted glob_result) as [|x l] eqn:E.
  { destruct glob_result; [congruence | discriminate Hlen]. }
  rewrite <- Hlen.
  pose proof (convert_spec pil (x :: l)
                (os_path_join output_dir (split_name split))
                ("coco-" ++ split_name split)%string N) as (Hs & _ & _ & Hd).
  cbv zeta in Hs, Hd.
  set (r := convert_parquet_to_webdataset_with_dims pil (x :: l)
              (os_path_join output_dir (split_name split))
              ("coco-" ++ split_name split)%string N) in *.
  cbn [stdout made_dirs shards hd_error].
  split; [reflexivity|]. split; [exact Hd|].
  rewrite Hs.
  destruct (@run_writer_names
              (shard_pattern (os_path_join output_dir (split_name split))
                 ("coco-" ++ split_name split)%string)
              N (samples_of pil (fst (step1 [] (x :: l)))) HN)
    as [Hnames Hnil].
  split; [exact Hnil|]. rewrite Hnames.
  apply map_ext. intros n. unfold shard_pattern.
  f_equal.
Qed.

Lemma shards_named_under_split_dir_witness :
  let o := main Stub.pil "in" "out" train 1 sample_files in
  hd_error (stdout o) = Some (InfoFound 3 "train")
  /\ made_dirs o = ["out/train"]
  /\ shards o <> []
  /\ map shard_name (shards o)
     = map (fun n => os_path_join "out/train"
                       ("coco-train-" ++ fmt_06d n ++ ".tar")%string)
           (seq 0 (List.length (shards o))).
Proof.
  refine (@shards_named_under_split_dir Stub.pil "in" "out" train 1
            sample_files _ _).
  - discriminate.
  - apply Nat.lt_0_1.
Defined.

(* ================================================================== *)
(** ** The key of a sample *)

Lemma rfind_from_spec (c : ascii) (p : string) :
  forall i last,
    (last < i)%Z ->
    rfind_from c p i last = last
    \/ ((i <= rfind_from c p i last < i + Z.of_nat (String.length p))%Z
        /\ String.get (Z.to_nat (rfind_from c p i last - i)) p = Some c).
Proof.
  induction p as [|a p IH]; intros i last Hl; simpl; auto.
  destruct (Ascii.eqb a c) eqn:E.
  - apply Ascii.eqb_eq in E. subst a.
    destruct (IH (i + 1)%Z i ltac:(lia)) as [H | [Hr Hg]].
    + rewrite H. right. split; [lia|].
      now rewrite Z.sub_diag.
    + right. split; [lia|].
      replace (Z.to_nat (rfind_from c p (i + 1) i - i))
        with (S (Z.to_nat (rfind_from c p (i + 1) i - (i + 1)))) by lia.
      exact Hg.
  - destruct (IH (i + 1)%Z last ltac:(lia)) as [H | [Hr Hg]]; auto.
    right. split; [lia|].
    replace (Z.to_nat (rfind_from c p (i + 1) last - i))
      with (S (Z.to_nat (rfind_from c p (i + 1) last - (i + 1)))) by lia.
    exact Hg.
Qed.

Lemma rfind_spec (c : ascii) (p : string) :
  rfind c p = (-1)%Z
  \/ ((0 <= rfind c p < Z.of_nat (String.length p))%Z
      /\ String.get (Z.to_nat (rfind c p)) p = Some c).
Proof.
  unfold rfind.
  destruct (@rfind_from_spec c p 0%Z (-1)%Z ltac:(lia)) as [H | [Hr Hg]];
    auto.
  right. split; [lia|]. now rewrite Z.sub_0_r in Hg.
Qed.

Lemma substring_all (p : string) : substring 0 (String.length p) p = p.
Proof.
  induction p as [|a p IH]; simpl; auto. now rewrite IH.
Qed.

Lemma substring_split (p : string) :
  forall n,
    n <= String.length p ->
    (substring 0 n p ++ substring n (String.length p - n) p)%string = p.
Proof.
  induction p as [|a p IH]; intros [|n] Hn; simpl in *; auto; try lia.
  - now rewrite substring_all.
  - rewrite IH by lia. reflexivity.
Qed.

Lemma substring_head (p : string) :
  forall n m c,
    String.get n p = Some c ->
    exists rest, substring n (S m) p = String c rest.
Proof.
  induction p as [|a p IH]; intros [|n] m c H; simpl in *;
    try discriminate.
  - inversion H; subst. eauto.
  - now apply IH.
Qed.

(** X13: the key of a sample is the filename with an extension cut off
    at the end: the filename is the key followed by the extension, and the
    extension is empty or begins with a dot. *)
Theorem splitext_round_trip (p : string) :
  (fst (splitext p) ++ snd (splitext p))%string = p
  /\ (snd (splitext p) = ""
      \/ exists rest, snd (splitext p) = String "."%char rest).
Proof.
  unfold splitext.
  destruct ((rfind "/" p <? rfind "." p)%Z
            && non_dot_before p (rfind "/" p + 1)
                 (Z.to_nat (rfind "." p - (rfind "/" p + 1)))) eqn:C;
    simpl; [|split; [|now left]].
  - apply andb_true_iff in C. destruct C as [Hlt _].
    apply Z.ltb_lt in Hlt.
    destruct (rfind_spec "/" p) as [Hs | [Hs _]];
      destruct (rfind_spec "." p) as [Hd | [Hd Hg]]; try lia.
    + split; [apply substring_split; lia|]. right.
      replace (String.length p - Z.to_nat (rfind "." p))
        with (S (String.length p - Z.to_nat (rfind "." p) - 1)) by lia.
      eapply substring_head; eauto.
    + split; [apply substring_split; lia|]. right.
      replace (String.length p - Z.to_nat (rfind "." p))
        with (S (String.length p - Z.to_nat (rfind "." p) - 1)) by lia.
      eapply substring_head; eauto.
  - clear C. induction p as [|a p IH]; simpl; auto. now rewrite IH.
Qed.

(* ================================================================== *)
(** ** The names of the shards *)

Lemma string_length_append (a b : string) :
  String.length (a ++ b)%string = String.length a + String.length b.
Proof.
  induction a as [|c a IH]; simpl; auto.
Qed.

Lemma string_append_assoc (a b c : string) :
  ((a ++ b) ++ c)%string = (a ++ b ++ c)%string.
Proof.
  induction a as [|x a IH]; simpl; auto. now rewrite IH.
Qed.

Lemma string_app_inv_head (a x y : string) :
  (a ++ x)%string = (a ++ y)%string -> x = y.
Proof.
  induction a as [|c a IH]; simpl; auto. intros H. inversion H. auto.
Qed.

Lemma string_app_inv_tail (t : string) :
  forall x y, (x ++ t)%string = (y ++ t)%string -> x = y.
Proof.
  assert (Hlen : forall x y t1 t2,
             String.length x = String.length y ->
             (x ++ t1)%string = (y ++ t2)%string -> x = y).
  { induction x as [|c x IH]; intros [|d y] t1 t2 Hl H; simpl in *;
      try discriminate; auto.
    inversion H; subst. f_equal. eapply IH; eauto. }
  intros x y H. apply (Hlen x y t t); auto.
  apply (f_equal String.length) in H.
  rewrite !string_length_append in H. lia.
Qed.

Lemma zeros_length (k : nat) : String.length (zeros k) = k.
Proof.
  induction k; simpl; auto.
Qed.

Lemma parse_zeros (k : nat) (s : string) (u : uint) :
  NilEmpty.uint_of_string s = Some u ->
  NilEmpty.uint_of_string (zeros k ++ s) = Some (Nat.iter k D0 u).
Proof.
  intros H. induction k as [|k IH]; simpl; auto. now rewrite IH.
Qed.

Lemma of_uint_zeros (k : nat) (u : uint) :
  Nat.of_uint (Nat.iter k D0 u) = Nat.of_uint u.
Proof.
  induction k as [|k IH]; simpl; auto.
Qed.

Lemma digits_nonempty (u : uint) : NilZero.string_of_uint u <> "".
Proof.
  destruct u; simpl; discriminate.
Qed.

Lemma parse_digits (u : uint) :
  exists u',
    NilEmpty.uint_of_string (NilZero.string_of_uint u) = Some u'
    /\ Nat.of_uint u' = Nat.of_uint u.
Proof.
  destruct u; try (eexists; split; [apply NilEmpty.usu | reflexivity]).
  exists (D0 Nil). split; reflexivity.
Qed.

Lemma fmt_06d_round_trip_aux (n : nat) :
  read_decimal (fmt_06d n) = Some n
  /\ 6 <= String.length (fmt_06d n).
Proof.
  unfold fmt_06d, read_decimal.
  set (d := NilZero.string_of_uint (Nat.to_uint n)).
  set (k := 6 - String.length d).
  split.
  - destruct (parse_digits (Nat.to_uint n)) as (u' & Hu & Hv). fold d in Hu.
    assert (Hne : (zeros k ++ d)%string <> "").
    { intros H. apply (f_equal String.length) in H.
      rewrite string_length_append in H. simpl in H.
      assert (String.length d <> 0).
      { intros Hd. apply (digits_nonempty (Nat.to_uint n)). fold d.
        destruct d; [reflexivity | discriminate]. }
      lia. }
    unfold NilZero.uint_of_string.
    destruct (zeros k ++ d)%string eqn:E; [congruence|].
    rewrite <- E, (parse_zeros k d Hu). simpl.
    now rewrite of_uint_zeros, Hv, DecimalNat.Unsigned.of_to.
  - rewrite string_length_append, zeros_length. lia.
Qed.

Lemma fmt_06d_inj (n m : nat) : fmt_06d n = fmt_06d m -> n = m.
Proof.
  intros H.
  destruct (fmt_06d_round_trip_aux n) as [Hn _].
  destruct (fmt_06d_round_trip_aux m) as [Hm _].
  rewrite H in Hn. congruence.
Qed.

(** X14: the shard number printed with ["%06d"] has at least six
    characters and reads back as the shard number, so different shard
    numbers never print the same. *)
Theorem fmt_06d_round_trip (n : nat) :
  read_decimal (fmt_06d n) = Some n
  /\ 6 <= String.length (fmt_06d n)
  /\ forall m, fmt_06d n = fmt_06d m -> n = m.
Proof.
  destruct (fmt_06d_round_trip_aux n) as [Hr Hl].
  split; [exact Hr|]. split; [exact Hl|].
  intros m. apply fmt_06d_inj.
Qed.

Lemma prefix_slash (c : ascii) (rest : string) :
  prefix "/" (String c rest) = if ascii_dec "/"%char c then true else false.
Proof.
  cbn [prefix]. destruct (ascii_dec "/"%char c); auto.
  now destruct rest.
Qed.

(** The joined path is a fixed string followed by the part of the file
    name that starts at the dash. *)
Lemma os_path_join_dash (a pre : string) :
  exists C,
    forall s,
      os_path_join a (pre ++ String "-"%char s)%string
      = (C ++ String "-"%char s)%string.
Proof.
  unfold os_path_join.
  set (last_char := match String.get (String.length a - 1) a with
                    | Some c => c
                    | None => " "%char
                    end).
  destruct pre as [|c pre].
  - destruct (String.eqb a "") eqn:Ea;
      [|destruct (Ascii.eqb last_char "/"%char) eqn:El].
    + exists "". intros s. cbn [append]. rewrite prefix_slash.
      now destruct (ascii_dec "/"%char "-"%char) as [H|_]; [discriminate H|].
    + exists a. intros s. cbn [append]. rewrite prefix_slash.
      now destruct (ascii_dec "/"%char "-"%char) as [H|_]; [discriminate H|].
    + exists (a ++ "/")%string. intros s. cbn [append].
      rewrite prefix_slash, string_append_assoc.
      now destruct (ascii_dec "/"%char "-"%char) as [H|_]; [discriminate H|].
  - destruct (ascii_dec "/"%char c) as [Hc|Hc].
    { exists (String c pre). intros s. cbn [append]. rewrite prefix_slash.
      now destruct (ascii_dec "/"%char c). }
    destruct (String.eqb a "") eqn:Ea;
      [|destruct (Ascii.eqb last_char "/"%char) eqn:El].
    + exists (String c pre). intros s. cbn [append]. rewrite prefix_slash.
      now destruct (ascii_dec "/"%char c).
    + exists (a ++ String c pre)%string. intros s. cbn [append].
      rewrite prefix_slash, string_append_assoc.
      now destruct (ascii_dec "/"%char c).
    + exists (a ++ "/" ++ String c pre)%string. intros s. cbn [append].
      rewrite prefix_slash, !string_append_assoc.
      now destruct (ascii_dec "/"%char c).
Qed.

Lemma shard_pattern_inj (output_dir output_prefix : string) (n m : nat) :
  shard_pattern output_dir output_prefix n
  = shard_pattern output_dir output_prefix m ->
  n = m.
Proof.
  unfold shard_pattern.
  destruct (os_path_join_dash output_dir output_prefix) as [C HC].
  change (output_prefix ++ "-" ++ fmt_06d n ++ ".tar")%string
    with (output_prefix ++ String "-"%char (fmt_06d n ++ ".tar"))%string.
  change (output_prefix ++ "-" ++ fmt_06d m ++ ".tar")%string
    with (output_prefix ++ String "-"%char (fmt_06d m ++ ".tar"))%string.
  rewrite !HC. intros H.
  apply string_app_inv_head in H. inversion H as [H'].
  apply string_app_inv_tail in H'. now apply fmt_06d_inj.
Qed.

(** X15: with a positive bound, no two shard files of a run have the same
    name, so no shard overwrites another. *)
Theorem shard_names_distinct (pil : PIL) (files : list parquet_file)
    (output_dir output_prefix : string) (N : nat) :
  0 < N ->
  NoDup (map shard_name
           (shards (convert_parquet_to_webdataset_with_dims pil files
                      output_dir output_prefix N))).
Proof.
  intros HN.
  destruct (convert_spec pil files output_dir output_prefix N)
    as (Hs & _). cbv zeta in Hs. rewrite Hs.
  destruct (@run_writer_names (shard_pattern output_dir output_prefix) N
              (samples_of pil (fst (step1 [] files))) HN) as [Hnames _].
  rewrite Hnames.
  apply NoDup_map_NoDup_ForallPairs; [|apply seq_NoDup].
  intros n m _ _. apply shard_pattern_inj.
Qed.

Lemma shard_names_distinct_witness :
  NoDup (map shard_name
           (shards (convert_parquet_to_webdataset_with_dims Stub.pil
                      sample_files "out/train" "coco-train" 1))).
Proof.
  exact (@shard_names_distinct Stub.pil sample_files "out/train"
           "coco-train" 1 Nat.lt_0_1).
Defined.

(* ================================================================== *)
(** ** The array inspector *)

Section ReadNpyFacts.

Variable elt : Type.
Variable np_min np_max : list elt -> elt.

Lemma rows_spec (r : nat) :
  forall (c : nat) (l : list elt),
    r * c <= List.length l ->
    List.length (ReadNpy.rows r c l) = r
    /\ Forall (fun row => List.length row = c) (ReadNpy.rows r c l).
Proof.
  induction r as [|r IH]; intros c l Hl; simpl.
  - split; [reflexivity | constructor].
  - simpl in Hl.
    destruct (IH c (skipn c l)) as [H1 H2].
    { rewrite length_skipn. lia. }
    split; [now rewrite H1|].
    constructor; auto. rewrite length_firstn. lia.
Qed.

Lemma flat_map_firstn_length (k c : nat) (ll : list (list elt)) :
  Forall (fun row => List.length row = c) ll ->
  List.length (flat_map (firstn k) ll) = List.length ll * Nat.min k c.
Proof.
  induction 1 as [|row ll Hrow _ IH]; simpl; auto.
  rewrite length_app, IH, length_firstn, Hrow. reflexivity.
Qed.

Lemma Forall_prefix (A : Type) (P : A -> Prop) (k : nat) :
  forall l, Forall P l -> Forall P (firstn k l).
Proof.
  induction k as [|k IH]; intros l H; simpl; [constructor|].
  destruct H; constructor; auto.
Qed.

Lemma corner_consistent (t : string) (r c : nat) (block : list elt) :
  r * c <= List.length block ->
  ReadNpy.consistent (ReadNpy.corner t r c block)
  /\ ReadNpy.size (ReadNpy.corner t r c block) <= 25.
Proof.
  intros Hl. unfold ReadNpy.consistent, ReadNpy.size, ReadNpy.corner.
  cbn [ReadNpy.flat ReadNpy.shape fold_right].
  destruct (@rows_spec r c block Hl) as [H1 H2].
  split.
  - rewrite (@flat_map_firstn_length 5 c).
    + rewrite length_firstn, H1. lia.
    + now apply Forall_prefix.
  - assert (Nat.min 5 r <= 5) by lia. assert (Nat.min 5 c <= 5) by lia. nia.
Qed.

#[local] Arguments firstn : simpl never.
#[local] Arguments Nat.min : simpl never.
#[local] Arguments ReadNpy.corner : simpl never.

(** X16: on a loaded array the script raises exactly when the array is
    empty, at the minimum, after the shape and type lines; on a non-empty
    array it prints shape, type, minimum and maximum and then at most one
    excerpt line, and it prints no excerpt exactly when the array has 50
    elements or more and five or more dimensions. *)
Theorem script_outcome (data : ReadNpy.ndarray elt) :
  (ReadNpy.size data = 0 ->
   ReadNpy.script np_min np_max (inr data)
   = ([ReadNpy.DataShape elt (ReadNpy.shape data);
       ReadNpy.DataType elt (ReadNpy.dtype data)],
      inl ReadNpy.ValueError_reduction))
  /\ (0 < ReadNpy.size data ->
      exists more,
        ReadNpy.script np_min np_max (inr data)
        = ([ReadNpy.DataShape elt (ReadNpy.shape data);
            ReadNpy.DataType elt (ReadNpy.dtype data);
            ReadNpy.MinValue (np_min (ReadNpy.flat data));
            ReadNpy.MaxValue (np_max (ReadNpy.flat data))] ++ more,
           inr tt)
        /\ List.length more <= 1
        /\ (more = [] <->
            50 <= ReadNpy.size data
            /\ 5 <= List.length (ReadNpy.shape data))).
Proof.
  split.
  - intros H. unfold ReadNpy.script. now rewrite H.
  - intros Hpos. unfold ReadNpy.script.
    destruct (ReadNpy.size data =? 0)%nat eqn:E0;
      [apply Nat.eqb_eq in E0; lia|].
    destruct (ReadNpy.size data <? 50)%nat eqn:E50.
    + apply Nat.ltb_lt in E50. eexists. split; [reflexivity|].
      split; [simpl; lia|]. split; [discriminate | lia].
    + apply Nat.ltb_ge in E50.
      unfold ReadNpy.excerpt, ReadNpy.size in *.
      destruct (ReadNpy.shape data) as [|a [|r [|c [|d [|e rest]]]]];
        simpl in *.
      * lia.
      * eexists. split; [reflexivity|]. split; [simpl; lia|].
        split; [discriminate | lia].
      * eexists. split; [reflexivity|]. split; [simpl; lia|].
        split; [discriminate | lia].
      * destruct (a =? 0)%nat eqn:Ea; [apply Nat.eqb_eq in Ea; subst; lia|].
        eexists. split; [reflexivity|]. split; [simpl; lia|].
        split; [discriminate | lia].
      * destruct (a =? 0)%nat eqn:Ea; [apply Nat.eqb_eq in Ea; subst; lia|].
        destruct (r =? 0)%nat eqn:Er;
          [apply Nat.eqb_eq in Er; subst; lia|].
        eexists. split; [reflexivity|]. split; [simpl; lia|].
        split; [discriminate | lia].
      * exists []. split; [reflexivity|]. split; [simpl; lia|].
        split; [lia | reflexivity].
Qed.

(** X17: when the loaded array holds as many elements as its shape says,
    every excerpt the script prints is an array of the same type with
    fewer than 50 elements that again holds as many elements as its shape
    says. *)
Theorem excerpts_are_small (data : ReadNpy.ndarray elt) (l : ReadNpy.line elt)
    (a : ReadNpy.ndarray elt) :
  ReadNpy.consistent data ->
  In l (fst (ReadNpy.script np_min np_max (inr data))) ->
  ReadNpy.shown l = Some a ->
  ReadNpy.consistent a
  /\ ReadNpy.size a < 50
  /\ ReadNpy.dtype a = ReadNpy.dtype data.
Proof.
  intros Hc. unfold ReadNpy.script.
  destruct (ReadNpy.size data =? 0)%nat eqn:E0.
  { simpl. intros [<-|[<-|[]]]; discriminate. }
  destruct (ReadNpy.size data <? 50)%nat eqn:E50.
  { apply Nat.ltb_lt in E50. simpl.
    intros [<-|[<-|[<-|[<-|[<-|[]]]]]]; try discriminate.
    intros H. inversion H; subst. auto. }
  apply Nat.ltb_ge in E50. apply Nat.eqb_neq in E0.
  unfold ReadNpy.consistent in Hc.
  unfold ReadNpy.excerpt, ReadNpy.size in *.
  destruct (ReadNpy.shape data) as [|n [|r [|c [|d [|e rest]]]]] eqn:Es;
    simpl in *.
  - intros [<-|[<-|[<-|[<-|[]]]]]; discriminate.
  - intros [<-|[<-|[<-|[<-|[<-|[]]]]]]; try discriminate.
    intros H. inversion H; subst. unfold ReadNpy.consistent, ReadNpy.size.
    simpl. rewrite length_firstn. repeat split; lia.
  - intros [<-|[<-|[<-|[<-|[<-|[]]]]]]; try discriminate.
    intros H. inversion H; subst.
    destruct (@corner_consistent (ReadNpy.dtype data) n r (ReadNpy.flat data))
      as [H1 H2]; [nia|].
    repeat split; auto. unfold ReadNpy.size in H2. lia.
  - destruct (n =? 0)%nat eqn:En; simpl.
    { intros [<-|[<-|[<-|[<-|[]]]]]; discriminate. }
    apply Nat.eqb_neq in En.
    intros [<-|[<-|[<-|[<-|[<-|[]]]]]]; try discriminate.
    intros H. inversion H; subst.
    destruct (@corner_consistent (ReadNpy.dtype data) r c
                (firstn (r * c) (ReadNpy.flat data))) as [H1 H2].
    { rewrite length_firstn. nia. }
    repeat split; auto. unfold ReadNpy.size in H2. lia.
  - destruct ((n =? 0)%nat || (r =? 0)%nat) eqn:En; simpl.
    { intros [<-|[<-|[<-|[<-|[]]]]]; discriminate. }
    apply orb_false_iff in En. destruct En as [En Er].
    apply Nat.eqb_neq in En, Er.
    intros [<-|[<-|[<-|[<-|[<-|[]]]]]]; try discriminate.
    intros H. inversion H; subst.
    destruct (@corner_consistent (ReadNpy.dtype data) c d
                (firstn (c * d) (ReadNpy.flat data))) as [H1 H2].
    { assert (Hnr : 1 <= n * r) by nia.
      assert (Heq : n * (r * (c * (d * 1))) = (n * r) * (c * d)) by nia.
      assert (Hle : c * d <= List.length (ReadNpy.flat data))
        by (rewrite Hc, Heq; nia).
      rewrite length_firstn. lia. }
    repeat split; auto. unfold ReadNpy.size in H2. lia.
  - intros [<-|[<-|[<-|[<-|[]]]]]; discriminate.
Qed.

End ReadNpyFacts.

Lemma excerpts_are_small_witness :
  ReadNpy.consistent
    (ReadNpy.corner "int64" 10 10 (ReadNpy.flat grid_10x10))
  /\ ReadNpy.size
       (ReadNpy.corner "int64" 10 10 (ReadNpy.flat grid_10x10)) < 50
  /\ ReadNpy.dtype
       (ReadNpy.corner "int64" 10 10 (ReadNpy.flat grid_10x10))
     = ReadNpy.dtype grid_10x10.
Proof.
  refine (@excerpts_are_small Z list_min list_max grid_10x10
            (ReadNpy.TopLeftCorner
               (ReadNpy.corner "int64" 10 10 (ReadNpy.flat grid_10x10)))
            (ReadNpy.corner "int64" 10 10 (ReadNpy.flat grid_10x10))
            _ _ _).
  - reflexivity.
  - vm_compute. do 4 right. left. reflexivity.
  - reflexivity.
Defined.

(* ================================================================== *)
(** ** Reading the counts off the output *)

Lemma drop_report_is (name : string) (ev : event) :
  drop_report name ev -> is_drop_report ev = true.
Proof.
  intros [->|[->|[d ->]]]; reflexivity.
Qed.

Lemma notices_are_not_reports (name : string) (l : list event) :
  Forall (notice name) l -> filter is_drop_report l = [].
Proof.
  induction 1 as [|ev l Hev _ IH]; simpl; auto.
  destruct Hev as [[f ->]|[m ->]]; simpl; exact IH.
Qed.

Lemma make_sample_report_count (pil : PIL) (name : string) (data : entry) :
  List.length (filter is_drop_report (fst (make_sample pil name data)))
  = match snd (make_sample pil name data) with
    | Some _ => 0
    | None => 1
    end.
Proof.
  unfold make_sample.
  destruct (is_None (image_bytes data) || py_not (prompt_text data)); auto.
  pose proof (validator_events pil (image_bytes data) name) as H.
  destruct (get_image_bytes_validate_and_dims pil (image_bytes data) name)
    as [out [[[[b fmt] w] h]|]]; simpl in *.
  - now rewrite (notices_are_not_reports H).
  - destruct H as (pre & ev & -> & Hev & Hpre).
    rewrite filter_app, (notices_are_not_reports Hpre). simpl.
    now rewrite (drop_report_is Hev).
Qed.

Lemma step2_report_count (pil : PIL) (items : image_data_t) :
  List.length (filter is_drop_report (step2_output pil items))
  + List.length (samples_of pil items)
  = List.length items.
Proof.
  unfold step2_output, samples_of.
  induction items as [|[name data] items IH]; simpl; auto.
  rewrite filter_app, !length_app.
  pose proof (make_sample_report_count pil name data) as H.
  destruct (snd (make_sample pil name data)); simpl in *; lia.
Qed.

Lemma process_rows_no_report (rows : list row) :
  forall d,
    filter is_drop_report (fst (snd (process_rows d rows))) = [].
Proof.
  induction rows as [|r rows IH]; intros d; simpl; auto.
  assert (H1 : filter is_drop_report (fst (snd (process_row d r))) = []).
  { unfold process_row, getitem.
    destruct (extract_image_bytes (image r)); auto.
    destruct (lookup d (filename r)) as [e|]; simpl; auto.
    destruct (is_None (image_bytes e)); simpl; auto.
    destruct (py_len (caption r)), (py_len (prompt_text e)); simpl; auto.
    now destruct (n0 <? n)%nat. }
  destruct (process_row d r) as [d1 [out [ex|u]]]; simpl in *; auto.
  specialize (IH d1).
  destruct (process_rows d1 rows) as [d2 [out2 res2]]. simpl in *.
  now rewrite filter_app, H1, IH.
Qed.

Lemma step1_no_report (files : list parquet_file) :
  forall d, filter is_drop_report (snd (step1 d files)) = [].
Proof.
  induction files as [|pf files IH]; intros d; simpl; auto.
  assert (H1 : filter is_drop_report (snd (process_file d pf)) = []).
  { unfold process_file. destruct (read_table pf) as [ex|rows]; auto.
    pose proof (process_rows_no_report rows d) as H.
    destruct (process_rows d rows) as [d1 [out [ex|u]]]; simpl in *; auto.
    now rewrite filter_app, H. }
  destruct (process_file d pf) as [d1 o1]. simpl in H1.
  specialize (IH d1). destruct (step1 d1 files) as [d2 o2]. simpl in *.
  now rewrite filter_app, H1, IH.
Qed.

Lemma convert_stdout (pil : PIL) (files : list parquet_file)
    (output_dir output_prefix : string) (N : nat) :
  stdout (convert_parquet_to_webdataset_with_dims pil files output_dir
            output_prefix N)
  = [InfoStep1] ++ snd (step1 [] files)
    ++ [InfoStep2 (List.length (fst (step1 [] files)))]
    ++ step2_output pil (fst (step1 [] files))
    ++ [InfoFinished;
        InfoProcessed (List.length (samples_of pil (fst (step1 [] files))));
        InfoSavedIn output_dir].
Proof.
  unfold convert_parquet_to_webdataset_with_dims.
  destruct (step1 [] files) as [d out1]. rewrite step2_spec. reflexivity.
Qed.

(** X18: the counts of a run can be read off its output: the number of
    unique images announced before step 2 is the number of images
    reported as processed at the end plus the number of lines that report
    a dropped entry, and the processed count is the number of samples in
    the shards. *)
Theorem output_counts_add_up (pil : PIL) (files : list parquet_file)
    (output_dir output_prefix : string) (N : nat) :
  let o := convert_parquet_to_webdataset_with_dims pil files output_dir
             output_prefix N in
  exists unique,
    In (InfoStep2 unique) (stdout o)
    /\ In (InfoProcessed (total_images_processed o)) (stdout o)
    /\ unique
       = total_images_processed o
         + List.length (filter is_drop_report (stdout o))
    /\ total_images_processed o = List.length (written o).
Proof.
  intros o.
  destruct (convert_spec pil files output_dir output_prefix N)
    as (_ & Hw & Ht & _).
  fold o in Hw, Ht.
  pose proof (convert_stdout pil files output_dir output_prefix N) as Hout.
  fold o in Hout.
  set (d := fst (step1 [] files)) in *.
  exists (List.length d). rewrite Hout, Ht, Hw.
  split; [|split; [|split; [|reflexivity]]].
  - simpl. right. apply in_or_app. right. simpl. auto.
  - simpl. right. apply in_or_app. right. simpl. right.
    apply in_or_app. right. simpl. auto.
  - rewrite !filter_app, step1_no_report. simpl.
    rewrite !length_app. simpl.
    pose proof (step2_report_count pil d). lia.
Qed.

(* ================================================================== *)
(** ** The shards of a run *)

(** C7: a run of the conversion with a positive [samples_per_shard]
    hands the validated samples to the writer in the order of step 2 and
    leaves shard files that hold exactly these samples in that order (so
    every sample sits whole in one shard), each with at most
    [samples_per_shard] samples, named through the pattern of line 73 by
    the shard numbers 0, 1, 2, ... in six digits; the count it reports is
    the number of samples written.  A run with [samples_per_shard = 10000]
    that produces 25000 validated samples leaves exactly three shards, of
    10000, 10000 and 5000 samples, numbered 000000 to 000002. *)
Theorem shards_of_run (pil : PIL) (parquet_files : list parquet_file)
    (output_dir output_prefix : string) (samples_per_shard : nat) :
  0 < samples_per_shard ->
  let o := convert_parquet_to_webdataset_with_dims pil parquet_files
             output_dir output_prefix samples_per_shard in
  flat_map shard_samples (shards o)
  = samples_of pil (fst (step1 [] parquet_files))
  /\ total_images_processed o
     = List.length (samples_of pil (fst (step1 [] parquet_files)))
  /\ Forall (fun f => shard_len f <= samples_per_shard) (shards o)
  /\ map shard_name (shards o)
     = map (shard_pattern output_dir output_prefix)
           (seq 0 (List.length (shards o)))
  /\ (samples_per_shard = 10000 -> total_images_processed o = 25000 ->
      map shard_len (shards o) = [10000; 10000; 5000]
      /\ map shard_name (shards o)
         = [ os_path_join output_dir (output_prefix ++ "-000000.tar")%string;
             os_path_join output_dir (output_prefix ++ "-000001.tar")%string;
             os_path_join output_dir (output_prefix ++ "-000002.tar")%string ]).
Proof.
  intros HN o.
  destruct (convert_spec pil parquet_files output_dir output_prefix
              samples_per_shard) as (Hs & _ & Ht & _).
  fold o in Hs, Ht. cbv zeta in Hs, Ht.
  set (validated := samples_of pil (fst (step1 [] parquet_files))) in *.
  set (pat := shard_pattern output_dir output_prefix) in *.
  rewrite Hs, Ht.
  destruct (@run_writer_names pat samples_per_shard validated HN)
    as [Hnames _].
  split; [apply run_writer_samples|]. split; [reflexivity|].
  assert (Hbound : Forall (fun f => shard_len f <= samples_per_shard)
                     (run_writer pat samples_per_shard validated)).
  { destruct (@writer_inv_write_all pat samples_per_shard validated HN _ []
                (writer_inv_new pat samples_per_shard))
      as [_ _ (cur & Hcur & _ & Hc & Hle & _ & _) Hf _].
    unfold run_writer, sink_close, finish. rewrite Hcur. simpl finished.
    apply Forall_app. split.
    - eapply Forall_impl; [|exact Hf]. simpl. intros f ->. lia.
    - constructor; [lia | constructor]. }
  split; [exact Hbound|]. split; [exact Hnames|].
  intros HN' Hlen.
  assert (Hl : validated <> []) by (intros E; rewrite E in Hlen;
                                    discriminate Hlen).
  assert (Hlens : map shard_len (run_writer pat samples_per_shard validated)
                  = [10000; 10000; 5000]).
  { rewrite (run_writer_lengths pat HN Hl), Hlen, HN'.
    vm_compute. reflexivity. }
  split; [exact Hlens|].
  assert (H3 : List.length (run_writer pat samples_per_shard validated) = 3).
  { rewrite <- (length_map shard_len), Hlens. reflexivity. }
  rewrite Hnames, H3. reflexivity.
Qed.

Lemma lookup_app (d d' : image_data_t) (k : string) :
  lookup (d ++ d') k
  = match lookup d k with
    | Some e => Some e
    | None => lookup d' k
    end.
Proof.
  induction d as [|[k' e'] d IH]; simpl; auto.
  now destruct (String.eqb k' k).
Qed.

Lemma store_fresh (d : image_data_t) (k : string) (e : entry) :
  lookup d k = None -> store d k e = d ++ [(k, e)].
Proof.
  induction d as [|[k' e'] d IH]; simpl; auto.
  destruct (String.eqb k' k); [discriminate|].
  intros H. now rewrite IH.
Qed.

Lemma store_last (d : image_data_t) (k : string) (e0 e : entry) :
  lookup d k = None -> store (d ++ [(k, e0)]) k e = d ++ [(k, e)].
Proof.
  induction d as [|[k' e'] d IH]; simpl.
  - now rewrite String.eqb_refl.
  - destruct (String.eqb k' k); [discriminate|].
    intros H. now rewrite IH.
Qed.

(** A row with raw bytes whose filename is new adds its entry at the
    end. *)
Lemma process_row_fresh (d : image_data_t) (r : row) :
  is_bytes (image r) = true ->
  lookup d (filename r) = None ->
  process_row d r = (d ++ [fresh_item r], ([], inr tt)).
Proof.
  intros Hb L. unfold process_row, getitem, fresh_item.
  destruct (image r) as [|b| | |] eqn:I; try discriminate. simpl.
  rewrite L. simpl.
  rewrite (@store_fresh d (filename r) default_entry L).
  now rewrite (@store_last d (filename r) default_entry
                 {| prompt_text := caption r; image_bytes := PyBytes b |} L).
Qed.

Lemma process_rows_fresh (rows : list row) :
  forall d,
    Forall (fun r => is_bytes (image r) = true) rows ->
    NoDup (map filename rows) ->
    (forall r, In r rows -> lookup d (filename r) = None) ->
    fst (process_rows d rows) = d ++ map fresh_item rows.
Proof.
  induction rows as [|r rows IH]; intros d Hb Hn Hd; simpl.
  - now rewrite app_nil_r.
  - inversion Hb as [|? ? Hr Hrest]; subst.
    inversion Hn as [|? ? Hnot Hn']; subst.
    rewrite (@process_row_fresh d r Hr (Hd r (or_introl eq_refl))).
    specialize (IH (d ++ [fresh_item r]) Hrest Hn').
    destruct (process_rows (d ++ [fresh_item r]) rows) as [d2 m].
    simpl in *. rewrite IH; [now rewrite <- app_assoc|].
    intros r' Hr'. rewrite lookup_app, (Hd r' (or_intror Hr')).
    unfold fresh_item. simpl.
    destruct (String.eqb (filename r) (filename r')) eqn:E; auto.
    apply String.eqb_eq in E. exfalso. apply Hnot. rewrite E.
    now apply in_map.
Qed.

Lemma samples_of_all (pil : PIL) (items : image_data_t) :
  Forall (fun it => snd (make_sample pil (fst it) (snd it)) <> None) items ->
  List.length (samples_of pil items) = List.length items.
Proof.
  unfold samples_of. induction 1 as [|[name data] items H _ IH]; simpl; auto.
  simpl in H. destruct (snd (make_sample pil name data)); [|congruence].
  simpl. now rewrite IH.
Qed.

Lemma numbered_rows_distinct (n : nat) :
  NoDup (map filename (numbered_rows n)).
Proof.
  unfold numbered_rows. rewrite map_map. simpl.
  apply NoDup_map_NoDup_ForallPairs; [|apply seq_NoDup].
  intros i j _ _ H. apply string_app_inv_tail in H. now apply fmt_06d_inj.
Qed.

Lemma step1_single (d : image_data_t) (pf : parquet_file) :
  fst (step1 d [pf])
  = match read_table pf with
    | inr rows => fst (process_rows d rows)
    | inl _ => d
    end.
Proof.
  simpl. unfold process_file.
  destruct (read_table pf) as [ex|rows]; auto.
  now destruct (process_rows d rows) as [d1 [out [ex|u]]].
Qed.

(** Every row of the numbered file is written. *)
Lemma numbered_file_samples (n : nat) :
  List.length (samples_of Stub.pil (fst (step1 [] [numbered_file n]))) = n.
Proof.
  assert (Hd : fst (step1 [] [numbered_file n])
               = map fresh_item (numbered_rows n)).
  { rewrite step1_single. cbn [numbered_file read_table].
    apply (@process_rows_fresh (numbered_rows n) []);
      auto using numbered_rows_distinct.
    unfold numbered_rows. apply Forall_forall. intros r Hr.
    apply in_map_iff in Hr. destruct Hr as (i & <- & _). reflexivity. }
  rewrite Hd, samples_of_all.
  - unfold numbered_rows. now rewrite !length_map, length_seq.
  - unfold numbered_rows. rewrite map_map. apply Forall_forall.
    intros it Hit. apply in_map_iff in Hit. destruct Hit as (i & <- & _).
    unfold fresh_item. simpl. discriminate.
Qed.

Lemma shards_of_run_witness :
  let o := convert_parquet_to_webdataset_with_dims Stub.pil
             [numbered_file 25000] "out/train" "coco-train" 10000 in
  total_images_processed o = 25000
  /\ flat_map shard_samples (shards o)
     = samples_of Stub.pil (fst (step1 [] [numbered_file 25000]))
  /\ map shard_len (shards o) = [10000; 10000; 5000]
  /\ map shard_name (shards o) = [ "out/train/coco-train-000000.tar";
                                   "out/train/coco-train-000001.tar";
                                   "out/train/coco-train-000002.tar" ].
Proof.
  intros o.
  assert (HN : 0 < 10000) by (apply Nat.ltb_lt; vm_compute; reflexivity).
  destruct (@shards_of_run Stub.pil [numbered_file 25000] "out/train"
              "coco-train" 10000 HN) as (Hw & Ht & _ & _ & H).
  fold o in Hw, Ht, H.
  assert (Hn : total_images_processed o = 25000)
    by (rewrite Ht; apply numbered_file_samples).
  destruct (H eq_refl Hn) as [Hl Hnames].
  split; [exact Hn|]. split; [exact Hw|]. split; [exact Hl|]. exact Hnames.
Defined.
